(** * Ulysses_Tarot image scripts: transcode, decide, commit

    A shallow embedding of the card-image maintenance scripts

      - [compress_images.py]             (module [Conservative])
      - [compress_images_aggressive.py]  (module [Aggressive])
      - [compress_webp_aggressive.py]    (module [WebpAggressive])
      - [convert_to_webp.py]             (module [ConvertToWebp])

    together with the helper [has_transparency] that
    [compress_images_aggressive.py] and [restore_and_convert.py] share
    verbatim.

    The [cards] directory and its backup sub-directory are finite maps
    from file names to file contents.  Pillow is an external collaborator:
    it appears as a record of functions ([Codec]) about which nothing is
    assumed unless a statement says so.  An exception that the scripts do
    not catch ends the run; the state reached at that point is kept. *)

From Stdlib Require Import ZArith Ascii String List Bool Lia.
From stdpp Require Import base option gmap strings list fin_maps.

Local Open Scope Z_scope.

(** ** File names: the fragment of [pathlib] and [str] the scripts use *)

Module Pathlib.

(** [name.rfind('.')] *)
Fixpoint rfind_dot (s : string) : option nat :=
  match s with
  | EmptyString => None
  | String c r =>
      match rfind_dot r with
      | Some i => Some (S i)
      | None => if Ascii.eqb c "."%char then Some 0%nat else None
      end
  end.

(** [PurePath.suffix]: the part of the name from its last dot, unless
    that dot is the first or the last character of the name. *)
Definition suffix (name : string) : string :=
  match rfind_dot name with
  | Some i =>
      if (0 <? i)%nat && (i <? String.length name - 1)%nat
      then substring i (String.length name - i) name
      else EmptyString
  | None => EmptyString
  end.

(** [PurePath.with_suffix] *)
Definition with_suffix (name new_suffix : string) : string :=
  let old_suffix := suffix name in
  substring 0 (String.length name - String.length old_suffix) name
    +:+ new_suffix.

Definition lower_ascii (c : ascii) : ascii :=
  let n := nat_of_ascii c in
  if (65 <=? n)%nat && (n <=? 90)%nat then ascii_of_nat (n + 32) else c.

(** [str.lower] on ASCII names *)
Fixpoint lower (s : string) : string :=
  match s with
  | EmptyString => EmptyString
  | String c r => String (lower_ascii c) (lower r)
  end.

(** [str.startswith] *)
Definition startswith (s p : string) : bool := String.prefix p s.

(** [str.endswith]; [Path.glob('*.ext')] keeps the names that end so *)
Definition endswith (s p : string) : bool :=
  (String.length p <=? String.length s)%nat
  && String.eqb (substring (String.length s - String.length p)
                           (String.length p) s) p.

End Pathlib.

(** ** Decoded images and the transparency classifier *)

(** File contents *)
Abbreviation bytes := (list Byte.byte).

(** A decoded Pillow image: the mode tag, the pixel dimensions and one
    plane of samples per band ([img.split()]). *)
Record Image := mkImage {
  mode : string;
  size : Z * Z;
  bands : list (list Z)
}.

(** [has_transparency(img)], identical in [compress_images_aggressive.py]
    and [restore_and_convert.py].  [None] stands for the [IndexError] of
    [img.split()[3]] on an image with fewer than four bands. *)
Definition has_transparency (img : Image) : option bool :=
  if String.eqb (mode img) "RGBA" || String.eqb (mode img) "LA" then
    if String.eqb (mode img) "RGBA" then
      match bands img !! 3%nat with
      | Some alpha => Some (existsb (fun pixel => pixel <? 255) alpha)
      | None => None
      end
    else Some true
  else Some false.

(** ** The external image library *)

(** Keyword arguments of [img.save], one constructor per container. *)
Inductive save_params :=
| PNG (optimize : bool) (compress_level : Z)
| JPEG (quality : Z) (optimize : bool)
| WEBP (quality : Z) (method : Z).

(** What [img.save(path, ...)] does to [path]: it writes the whole
    encoding, or it raises, possibly after leaving a truncated file. *)
Inductive save_outcome :=
| Saved (data : bytes)
| SaveError (partial : option bytes).

(** Pillow, as the scripts call it.  [cd_open] is [Image.open] followed by
    the first pixel access; [None] is any decoding exception. *)
Record Codec := mkCodec {
  cd_open : bytes -> option Image;
  cd_convert : Image -> string -> Image;
  cd_thumbnail : Image -> Z * Z -> Image;
  cd_save : Image -> save_params -> save_outcome
}.

(** The environment of a run: the codec and, for [shutil.copy2], whether
    copying the named file into the backup directory goes through. *)
Record Env := mkEnv {
  codec : Codec;
  copy2_ok : string -> bool
}.

(** ** The [cards] directory *)

Module FS.

Definition exists_ (fs : gmap string bytes) (p : string) : bool :=
  bool_decide (is_Some (fs !! p)).

(** [p.stat().st_size]; [None] is [FileNotFoundError] *)
Definition st_size (fs : gmap string bytes) (p : string) : option Z :=
  (fun data => Z.of_nat (length data)) <$> fs !! p.

Definition write (fs : gmap string bytes) (p : string) (data : bytes)
  : gmap string bytes := <[p := data]> fs.

(** [p.unlink()]; [None] is [FileNotFoundError] *)
Definition unlink (fs : gmap string bytes) (p : string)
  : option (gmap string bytes) :=
  match fs !! p with
  | Some _ => Some (delete p fs)
  | None => None
  end.

(** [src.replace(dst)]: rename over the destination *)
Definition replace (fs : gmap string bytes) (src dst : string)
  : option (gmap string bytes) :=
  match fs !! src with
  | Some data => Some (<[dst := data]> (delete src fs))
  | None => None
  end.

(** [if p.exists(): p.unlink()] *)
Definition unlink_if_exists (fs : gmap string bytes) (p : string)
  : gmap string bytes :=
  if exists_ fs p then delete p fs else fs.

End FS.

(** ** Run state: the two directories and the counters of [main] *)

Record State := mkState {
  fs : gmap string bytes;              (* cards/ *)
  backup : gmap string bytes;          (* cards/backup_.../ *)
  total_original : Z;
  total_compressed : Z;
  processed : Z;
  failed : Z;
  converted_to_jpg : Z;
  converted : Z
}.

Definition set_fs (st : State) (m : gmap string bytes) : State :=
  mkState m (backup st) (total_original st) (total_compressed st)
          (processed st) (failed st) (converted_to_jpg st) (converted st).

Definition set_backup (st : State) (m : gmap string bytes) : State :=
  mkState (fs st) m (total_original st) (total_compressed st)
          (processed st) (failed st) (converted_to_jpg st) (converted st).

Definition add_totals (st : State) (o c : Z) : State :=
  mkState (fs st) (backup st) (total_original st + o) (total_compressed st + c)
          (processed st) (failed st) (converted_to_jpg st) (converted st).

Definition incr_processed (st : State) : State :=
  mkState (fs st) (backup st) (total_original st) (total_compressed st)
          (processed st + 1) (failed st) (converted_to_jpg st) (converted st).

Definition incr_failed (st : State) : State :=
  mkState (fs st) (backup st) (total_original st) (total_compressed st)
          (processed st) (failed st + 1) (converted_to_jpg st) (converted st).

Definition incr_converted_to_jpg (st : State) : State :=
  mkState (fs st) (backup st) (total_original st) (total_compressed st)
          (processed st) (failed st) (converted_to_jpg st + 1) (converted st).

Definition incr_converted (st : State) : State :=
  mkState (fs st) (backup st) (total_original st) (total_compressed st)
          (processed st) (failed st) (converted_to_jpg st) (converted st + 1).

Definition initial (cards backups : gmap string bytes) : State :=
  mkState cards backups 0 0 0 0 0 0.

(** How one pass of the [for] loop ends: normally, or with an exception
    nothing catches, which ends [main] in the state reached so far. *)
Inductive outcome :=
| Continue (st : State)
| Abort (st : State).

Definition state_of (r : outcome) : State :=
  match r with Continue st | Abort st => st end.

(** The [for] loop over a directory listing taken before the first pass. *)
Fixpoint for_each (body : State -> string -> outcome)
                  (st : State) (listing : list string) : outcome :=
  match listing with
  | [] => Continue st
  | name :: rest =>
      match body st name with
      | Continue st' => for_each body st' rest
      | Abort st' => Abort st'
      end
  end.

(** Python truthiness of an [int] *)
Definition truthy (n : Z) : bool := negb (n =? 0).

(** ** Pieces shared by the scripts *)

(** [if not backup_path.exists(): shutil.copy2(img_file, backup_path)].
    [None]: [copy2] raised (missing source or a failed write); a copy
    that raises is taken to leave no file behind. *)
Definition ensure_backup (E : Env) (st : State) (name : string)
  : option State :=
  if FS.exists_ (backup st) name then Some st
  else
    match fs st !! name with
    | Some data =>
        if copy2_ok E name then Some (set_backup st (<[name := data]> (backup st)))
        else None
    | None => None
    end.

(** [if img.size[0] > max_size[0] or img.size[1] > max_size[1]:
        img.thumbnail(max_size, Image.Resampling.LANCZOS)] *)
Definition resize_step (C : Codec) (img : Image) (max_size : Z * Z) : Image :=
  if (fst (size img) >? fst max_size) || (snd (size img) >? snd max_size)
  then cd_thumbnail C img max_size
  else img.

(** [img.save(output_path, ...)] followed by the two [stat] calls and the
    computation of [reduction], whose division raises [ZeroDivisionError]
    on an empty original.  The [except] clause of the caller turns every
    exception into the absent result; the float [reduction] itself is
    only printed and is not kept. *)
Definition save_and_measure (C : Codec) (cards : gmap string bytes)
    (img : Image) (params : save_params) (input_path output_path : string)
  : gmap string bytes * option (Z * Z) :=
  match cd_save C img params with
  | SaveError None => (cards, None)
  | SaveError (Some partial) => (FS.write cards output_path partial, None)
  | Saved data =>
      let cards' := FS.write cards output_path data in
      match FS.st_size cards' input_path, FS.st_size cards' output_path with
      | Some original_size, Some compressed_size =>
          if original_size =? 0 then (cards', None)
          else (cards', Some (original_size, compressed_size))
      | _, _ => (cards', None)
      end
  end.

Definition temp_name (name : string) : string := ".temp_" +:+ name.

Definition image_extensions : list string :=
  [".png"; ".jpg"; ".jpeg"; ".PNG"; ".JPG"; ".JPEG"].

Definition is_image (name : string) : bool :=
  bool_decide (Pathlib.suffix name ∈ image_extensions).

(** [img_file.parent.name] for an entry of [cards_dir.iterdir()] *)
Definition parent_name : string := "cards".

(** ** [compress_images.py] *)

Module Conservative.

(** Lines 26-33: mode normalisation *)
Definition normalise_mode (C : Codec) (img : Image) : Image :=
  if bool_decide (mode img ∈ ["RGBA"; "LA"; "P"]) then
    if String.eqb (mode img) "RGBA" then cd_convert C img "RGBA"
    else cd_convert C img "RGB"
  else if negb (String.eqb (mode img) "RGB") then cd_convert C img "RGB"
  else img.

(** Lines 40-45: the container follows the suffix of the output path *)
Definition params_for (output_path : string) (quality : Z) : save_params :=
  if String.eqb (Pathlib.lower (Pathlib.suffix output_path)) ".png"
  then PNG true 9
  else JPEG quality true.

(** [compress_image(input_path, output_path, quality, max_size)].
    The result is the directory after the call and
    [(original_size, compressed_size)], or [None] for the
    [(None, None, None)] of the [except] clause. *)
Definition compress_image (C : Codec) (cards : gmap string bytes)
    (input_path output_path : string) (quality : Z) (max_size : Z * Z)
  : gmap string bytes * option (Z * Z) :=
  match cards !! input_path with
  | None => (cards, None)
  | Some data =>
      match cd_open C data with
      | None => (cards, None)
      | Some img =>
          let img := normalise_mode C img in
          let img := resize_step C img max_size in
          save_and_measure C cards img (params_for output_path quality)
                           input_path output_path
      end
  end.

(** Lines 105-123 of [main]: commit, discard or failure.  The test
    [if original_size and compressed_size:] is false for the absent
    result and for a size of zero. *)
Definition decide (st : State) (name temp_output : string)
    (r : option (Z * Z)) : outcome :=
  match r with
  | Some (original_size, compressed_size) =>
      if truthy original_size && truthy compressed_size then
        if compressed_size <? original_size then
          match FS.replace (fs st) temp_output name with
          | Some cards =>
              Continue (incr_processed
                          (add_totals (set_fs st cards)
                                      original_size compressed_size))
          | None => Abort st
          end
        else
          match FS.unlink (fs st) temp_output with
          | Some cards => Continue (incr_processed (set_fs st cards))
          | None => Abort st
          end
      else
        Continue (incr_failed
                    (set_fs st (FS.unlink_if_exists (fs st) temp_output)))
  | None =>
      Continue (incr_failed
                  (set_fs st (FS.unlink_if_exists (fs st) temp_output)))
  end.

(** One pass of the loop of [main] (lines 78-123) *)
Definition session (E : Env) (st : State) (name : string) : outcome :=
  if negb (is_image name) then Continue st
  else if String.eqb parent_name "backup_original" then Continue st
  else
    match ensure_backup E st name with
    | None => Abort st
    | Some st1 =>
        let temp_output := temp_name name in
        let '(cards, r) :=
          compress_image (codec E) (fs st1) name temp_output
                         85 (2000, 3000) in
        decide (set_fs st1 cards) name temp_output r
    end.

(** [main], from a listing of [cards/] *)
Definition main (E : Env) (st : State) (listing : list string) : outcome :=
  for_each (session E) st listing.

End Conservative.

(** ** [compress_images_aggressive.py] *)

Module Aggressive.

Definition to_rgb (C : Codec) (img : Image) : Image :=
  if negb (String.eqb (mode img) "RGB") then cd_convert C img "RGB" else img.

(** Lines 48-69: the image to save, the path it goes to and the
    encoder arguments *)
Definition plan (C : Codec) (img : Image) (has_alpha : bool)
    (input_path output_path : string) (jpg_quality : Z) (use_webp : bool)
  : Image * string * save_params :=
  if use_webp && has_alpha then (img, output_path, WEBP 85 6)
  else if String.eqb (Pathlib.lower (Pathlib.suffix input_path)) ".png"
          && negb has_alpha then
    (to_rgb C img, Pathlib.with_suffix output_path ".jpg",
     JPEG jpg_quality true)
  else if String.eqb (Pathlib.lower (Pathlib.suffix input_path)) ".png" then
    if use_webp then (img, output_path, WEBP 85 6)
    else (img, output_path, PNG true 9)
  else (to_rgb C img, output_path, JPEG jpg_quality true).

(** [compress_image(input_path, output_path, jpg_quality, max_size,
    use_webp)]: the sizes and the path actually written, or [None] for
    the [(None, None, None, None)] of the [except] clause. *)
Definition compress_image (C : Codec) (cards : gmap string bytes)
    (input_path output_path : string) (jpg_quality : Z)
    (max_size : Z * Z) (use_webp : bool)
  : gmap string bytes * option (Z * Z * string) :=
  match cards !! input_path with
  | None => (cards, None)
  | Some data =>
      match cd_open C data with
      | None => (cards, None)
      | Some img =>
          match has_transparency img with
          | None => (cards, None)
          | Some has_alpha =>
              let img := resize_step C img max_size in
              let '(img, final_output, params) :=
                plan C img has_alpha input_path output_path
                     jpg_quality use_webp in
              match save_and_measure C cards img params
                                     input_path final_output with
              | (cards', Some (o, c)) => (cards', Some (o, c, final_output))
              | (cards', None) => (cards', None)
              end
          end
      end
  end.

(** Lines 136-165 of [main] *)
Definition decide (st : State) (name temp_output : string)
    (r : option (Z * Z * string)) : outcome :=
  match r with
  | Some (original_size, compressed_size, final_output) =>
      if truthy original_size && truthy compressed_size then
        if compressed_size <? original_size then
          if negb (String.eqb (Pathlib.suffix final_output)
                              (Pathlib.suffix name)) then
            match FS.unlink (fs st) name with
            | Some cards =>
                Continue (incr_processed
                            (add_totals
                               (incr_converted_to_jpg (set_fs st cards))
                               original_size compressed_size))
            | None => Abort st
            end
          else
            match FS.replace (fs st) temp_output name with
            | Some cards =>
                Continue (incr_processed
                            (add_totals (set_fs st cards)
                                        original_size compressed_size))
            | None => Abort st
            end
        else
          let cards := FS.unlink_if_exists (fs st) temp_output in
          let cards :=
            if negb (String.eqb final_output temp_output)
            then FS.unlink_if_exists cards final_output
            else cards in
          Continue (incr_processed (set_fs st cards))
      else
        Continue (incr_failed
                    (set_fs st (FS.unlink_if_exists (fs st) temp_output)))
  | None =>
      Continue (incr_failed
                  (set_fs st (FS.unlink_if_exists (fs st) temp_output)))
  end.

(** One pass of the loop of [main] (lines 104-165) *)
Definition session (E : Env) (st : State) (name : string) : outcome :=
  if negb (is_image name) then Continue st
  else if String.eqb parent_name "backup_original" then Continue st
  else if Pathlib.startswith name ".temp_" then Continue st
  else
    match ensure_backup E st name with
    | None => Abort st
    | Some st1 =>
        let temp_output := temp_name name in
        let '(cards, r) :=
          compress_image (codec E) (fs st1) name temp_output
                         90 (1200, 2000) false in
        decide (set_fs st1 cards) name temp_output r
    end.

Definition main (E : Env) (st : State) (listing : list string) : outcome :=
  for_each (session E) st listing.

End Aggressive.

(** ** [compress_webp_aggressive.py] *)

Module WebpAggressive.

(** [compress_webp_aggressive(webp_path, output_path, quality, max_size)]:
    [(success, original_size, compressed_size)]; the [except] clause
    answers [(False, 0, 0)]. *)
Definition compress_webp_aggressive (C : Codec) (cards : gmap string bytes)
    (webp_path output_path : string) (quality : Z) (max_size : Z * Z)
  : gmap string bytes * (bool * Z * Z) :=
  match cards !! webp_path with
  | None => (cards, (false, 0, 0))
  | Some data =>
      match cd_open C data with
      | None => (cards, (false, 0, 0))
      | Some img =>
          let img :=
            if negb (String.eqb (mode img) "RGB")
            then cd_convert C img "RGB" else img in
          let img := resize_step C img max_size in
          match save_and_measure C cards img (WEBP quality 6)
                                 webp_path output_path with
          | (cards', Some (o, c)) => (cards', (true, o, c))
          | (cards', None) => (cards', (false, 0, 0))
          end
      end
  end.

(** Lines 88-104 of [main] *)
Definition decide (st : State) (name temp_output : string)
    (r : bool * Z * Z) : outcome :=
  let '(success, orig_size, comp_size) := r in
  if success && (comp_size <? orig_size) then
    match FS.replace (fs st) temp_output name with
    | Some cards =>
        Continue (add_totals (incr_converted (set_fs st cards))
                             orig_size comp_size)
    | None => Abort st
    end
  else if success then
    match FS.unlink (fs st) temp_output with
    | Some cards => Continue (incr_converted (set_fs st cards))
    | None => Abort st
    end
  else
    Continue (incr_failed
                (set_fs st (FS.unlink_if_exists (fs st) temp_output))).

(** One pass of the loop of [main] (lines 73-104) *)
Definition session (E : Env) (st : State) (name : string) : outcome :=
  let temp_output := temp_name name in
  match ensure_backup E st name with
  | None => Abort st
  | Some st1 =>
      let '(cards, r) :=
        compress_webp_aggressive (codec E) (fs st1) name temp_output
                                 75 (1000, 1667) in
      decide (set_fs st1 cards) name temp_output r
  end.

(** [main]; [listing] is [cards/] in sorted order, of which
    [glob('*.webp')] keeps the names ending in [.webp]. *)
Definition main (E : Env) (st : State) (listing : list string) : outcome :=
  for_each (session E) st
           (filter (fun n => Is_true (Pathlib.endswith n ".webp")) listing).

End WebpAggressive.

(** ** [convert_to_webp.py] *)

Module ConvertToWebp.

(** [convert_jpg_to_webp(jpg_path, webp_path, quality, max_size)] *)
Definition convert_jpg_to_webp (C : Codec) (cards : gmap string bytes)
    (jpg_path webp_path : string) (quality : Z) (max_size : Z * Z)
  : gmap string bytes * (bool * Z * Z) :=
  match cards !! jpg_path with
  | None => (cards, (false, 0, 0))
  | Some data =>
      match cd_open C data with
      | None => (cards, (false, 0, 0))
      | Some img =>
          let img :=
            if negb (String.eqb (mode img) "RGB")
            then cd_convert C img "RGB" else img in
          let img := resize_step C img max_size in
          match save_and_measure C cards img (WEBP quality 6)
                                 jpg_path webp_path with
          | (cards', Some (o, c)) => (cards', (true, o, c))
          | (cards', None) => (cards', (false, 0, 0))
          end
      end
  end.

(** The path the candidate is encoded to (line 69) *)
Definition webp_file (name : string) : string :=
  Pathlib.with_suffix name ".webp".

(** One pass of the loop of [main] (lines 68-94) *)
Definition session (E : Env) (st : State) (name : string) : outcome :=
  let target := webp_file name in
  let '(cards, (success, orig_size, comp_size)) :=
    convert_jpg_to_webp (codec E) (fs st) name target 85 (1200, 2000) in
  let st := set_fs st cards in
  if success && (comp_size <? orig_size) then
    match ensure_backup E st name with
    | None => Abort st
    | Some st1 =>
        match FS.unlink (fs st1) name with
        | Some cards' =>
            Continue (add_totals (incr_converted (set_fs st1 cards'))
                                 orig_size comp_size)
        | None => Abort st1
        end
    end
  else if success then
    match FS.unlink (fs st) target with
    | Some cards' => Continue (incr_converted (set_fs st cards'))
    | None => Abort st
    end
  else Continue (incr_failed st).

(** [main]; [glob('*.jpg')] keeps the names ending in [.jpg] *)
Definition main (E : Env) (st : State) (listing : list string) : outcome :=
  for_each (session E) st
           (filter (fun n => Is_true (Pathlib.endswith n ".jpg")) listing).

End ConvertToWebp.

(** ** Concrete collaborators for the worked runs *)

Module Sample.

Definition blob (n : nat) : bytes := repeat Byte.x2a n.

Definition opaque_rgb : Image := mkImage "RGB" (100, 150) [[7]; [7]; [7]].

(** A codec that decodes every file to [img] and whose [save] always
    ends in [out]; [convert] only retags and [thumbnail] is never
    reached by a 100x150 picture. *)
Definition fixed_codec (img : Image) (out : save_outcome) : Codec :=
  mkCodec (fun _ => Some img)
          (fun i m => mkImage m (size i) (bands i))
          (fun i _ => i)
          (fun _ _ => out).

Definition env (img : Image) (out : save_outcome) : Env :=
  mkEnv (fixed_codec img out) (fun _ => true).

(** An environment whose codec cannot decode anything. *)
Definition env_undecodable : Env :=
  mkEnv (mkCodec (fun _ => None)
                 (fun i m => mkImage m (size i) (bands i))
                 (fun i _ => i)
                 (fun _ _ => SaveError None))
        (fun _ => true).

(** The fixed codec, with a backup directory that cannot be written. *)
Definition env_backup_unwritable (img : Image) (out : save_outcome) : Env :=
  mkEnv (fixed_codec img out) (fun _ => false).

End Sample.

(** ** What the scripts rely on from [Image.thumbnail] *)


(** A reference instance in exact integer arithmetic, after the size
    computation of Pillow's [thumbnail] ([preserve_aspect_ratio] with
    [round_aspect]): the side that overflows the box more is clamped to
    the box, the other is the floor or the ceiling of the scaled side,
    whichever is closer in aspect, and at least 1.  On an exact tie this
    instance takes the floor; Pillow compares in floating point and may
    take the ceiling there. *)
Module Pillow.





End Pillow.

(** ** Vocabulary for statements about one asset *)

(** The picture [compress_images.py] hands to [img.save] *)
Definition conservative_prepared (C : Codec) (img : Image) : Image :=
  resize_step C (Conservative.normalise_mode C img) (2000, 3000).

(** The picture [compress_webp_aggressive.py] hands to [img.save] *)
Definition webp_prepared (C : Codec) (img : Image) : Image :=
  resize_step C
    (if negb (String.eqb (mode img) "RGB") then cd_convert C img "RGB" else img)
    (1000, 1667).

(** Decoding asset [name] raises. *)
Definition decode_fails (C : Codec) (cards : gmap string bytes)
    (name : string) : Prop :=
  exists data, cards !! name = Some data /\ cd_open C data = None.

(** In [compress_images.py], asset [name] decodes and [img.save] raises,
    leaving [partial] behind if it is [Some]. *)
Definition conservative_encode_fails (C : Codec) (cards : gmap string bytes)
    (name : string) (partial : option bytes) : Prop :=
  exists data img,
    cards !! name = Some data /\ cd_open C data = Some img
    /\ cd_save C (conservative_prepared C img)
                 (Conservative.params_for (temp_name name) 85)
       = SaveError partial.

(** In [compress_images.py], asset [name] holds [orig], decodes, and
    [img.save] writes the candidate [cand]. *)
Definition conservative_encodes (C : Codec) (cards : gmap string bytes)
    (name : string) (orig cand : bytes) : Prop :=
  cards !! name = Some orig
  /\ exists img,
       cd_open C orig = Some img
       /\ cd_save C (conservative_prepared C img)
                    (Conservative.params_for (temp_name name) 85)
          = Saved cand.

(** The same for [compress_webp_aggressive.py]. *)
Definition webp_encodes (C : Codec) (cards : gmap string bytes)
    (name : string) (orig cand : bytes) : Prop :=
  cards !! name = Some orig
  /\ exists img,
       cd_open C orig = Some img
       /\ cd_save C (webp_prepared C img) (WEBP 75 6) = Saved cand.

(** No file of the directory carries the temporary-name prefix. *)
Definition no_temp_names (cards : gmap string bytes) : Prop :=
  forall p, is_Some (cards !! p) -> Pathlib.startswith p ".temp_" = false.



(** ** Worked collections *)

Module Scenario.
Import Sample.

(** One opaque PNG of 10 bytes *)
Definition one_png : gmap string bytes := {[ "a.png" := blob 10 ]}.

(** An opaque PNG of 10 bytes and a JPEG of 3 bytes *)
Definition png_and_jpg : gmap string bytes :=
  <["b.jpg" := blob 3]> {[ "a.png" := blob 10 ]}.

(** Two PNG files *)
Definition two_png : gmap string bytes :=
  <["b.png" := blob 8]> {[ "a.png" := blob 10 ]}.

(** An empty PNG file *)
Definition empty_png : gmap string bytes := {[ "a.png" := [] ]}.

(** A JPEG next to a WebP file of the same stem *)
Definition jpg_beside_webp : gmap string bytes :=
  <["x.webp" := blob 3]> {[ "x.jpg" := blob 10 ]}.

(** A grayscale picture with an alpha band that is opaque everywhere *)
Definition opaque_la : Image := mkImage "LA" (2, 1) [[10; 20]; [255; 255]].

(** An RGBA picture with one pixel just short of opaque *)
Definition edge_rgba : Image :=
  mkImage "RGBA" (2, 1) [[1; 2]; [3; 4]; [5; 6]; [255; 254]].

End Scenario.

(** ** [restore_and_convert.py] *)

(** The two [str] operations that script adds to the ones above. *)
Module Str.

(** The scan of [s.replace(old, new)] for a non-empty [old]: left to
    right, occurrences do not overlap; [skip] counts the characters of a
    match still to be passed over. *)
Fixpoint replace_from (old new : string) (skip : nat) (s : string) : string :=
  match s with
  | EmptyString => EmptyString
  | String c r =>
      match skip with
      | S k => replace_from old new k r
      | O =>
          if String.prefix old s
          then new +:+ replace_from old new (String.length old - 1) r
          else String c (replace_from old new 0 r)
      end
  end.

Definition replace (s old new : string) : string := replace_from old new 0 s.

(** [needle in hay] *)
Fixpoint contains (needle hay : string) : bool :=
  String.prefix needle hay
  || match hay with
     | EmptyString => false
     | String _ r => contains needle r
     end.

End Str.

Module RestoreAndConvert.

(** The counters of [main] and the [cards] directory.  The backup
    directory is only read by this script and is passed alongside. *)
Record RState := mkRState {
  r_cards : gmap string bytes;
  r_converted : Z;
  r_kept_png : Z;
  r_failed : Z
}.

Inductive r_outcome :=
| RContinue (st : RState)
| RAbort (st : RState).

Definition r_state_of (r : r_outcome) : RState :=
  match r with RContinue st | RAbort st => st end.

(** The messages [convert_png_to_jpg] returns.  The one for success also
    carries the formatted sizes, which are only printed. *)
Definition msg_has_alpha : string := "有透明通道，保持 PNG".
Definition msg_converted : string := "转换成功".
Definition msg_error (e : string) : string := "错误: " +:+ e.

(** [convert_png_to_jpg(png_path, jpg_path, quality, max_size)], with
    [png_path] in the backup directory and [jpg_path] in [cards/].  [e] is
    the text of whatever exception the [except] clause catches. *)
Definition convert_png_to_jpg (C : Codec) (e : string)
    (backups cards : gmap string bytes) (png_name jpg_name : string)
    (quality : Z) (max_size : Z * Z)
  : gmap string bytes * (bool * string) :=
  match backups !! png_name with
  | None => (cards, (false, msg_error e))
  | Some data =>
      match cd_open C data with
      | None => (cards, (false, msg_error e))
      | Some img =>
          match has_transparency img with
          | None => (cards, (false, msg_error e))
          | Some true => (cards, (false, msg_has_alpha))
          | Some false =>
              let img :=
                if negb (String.eqb (mode img) "RGB")
                then cd_convert C img "RGB" else img in
              let img := resize_step C img max_size in
              match cd_save C img (JPEG quality true) with
              | SaveError None => (cards, (false, msg_error e))
              | SaveError (Some partial) =>
                  (FS.write cards jpg_name partial, (false, msg_error e))
              | Saved out =>
                  let cards' := FS.write cards jpg_name out in
                  match FS.st_size backups png_name,
                        FS.st_size cards' jpg_name with
                  | Some original_size, Some compressed_size =>
                      if original_size =? 0
                      then (cards', (false, msg_error e))
                      else (cards', (true, msg_converted))
                  | _, _ => (cards', (false, msg_error e))
                  end
              end
          end
      end
  end.

(** [shutil.copy2(png_file, png_output)]: from the backup directory into
    [cards/]; [None] when it raises. *)
Definition copy_back (E : Env) (backups cards : gmap string bytes)
    (name : string) : option (gmap string bytes) :=
  match backups !! name with
  | Some data => if copy2_ok E name then Some (<[name := data]> cards) else None
  | None => None
  end.

Definition set_cards (st : RState) (m : gmap string bytes) : RState :=
  mkRState m (r_converted st) (r_kept_png st) (r_failed st).

(** One pass of the loop of [main] (lines 76-103).  [exc name] is the
    text of the exception, if any, raised while [name] is converted. *)
Definition pass (E : Env) (exc : string -> string)
    (backups : gmap string bytes) (st : RState) (name : string) : r_outcome :=
  if Pathlib.startswith name ".temp_" then RContinue st
  else
    let jpg_name := Str.replace name ".png" ".jpg" in
    let '(cards, (success, message)) :=
      convert_png_to_jpg (codec E) (exc name) backups (r_cards st)
                         name jpg_name 90 (1200, 2000) in
    if success then
      RContinue (mkRState (FS.unlink_if_exists cards name)
                          (r_converted st + 1) (r_kept_png st) (r_failed st))
    else if Str.contains "透明通道" message then
      match copy_back E backups cards name with
      | Some cards' =>
          RContinue (mkRState cards' (r_converted st)
                              (r_kept_png st + 1) (r_failed st))
      | None => RAbort (set_cards st cards)
      end
    else
      match copy_back E backups cards name with
      | Some cards' =>
          RContinue (mkRState cards' (r_converted st)
                              (r_kept_png st) (r_failed st + 1))
      | None => RAbort (set_cards st cards)
      end.

Fixpoint loop (E : Env) (exc : string -> string)
    (backups : gmap string bytes) (st : RState) (files : list string)
  : r_outcome :=
  match files with
  | [] => RContinue st
  | name :: rest =>
      match pass E exc backups st name with
      | RContinue st' => loop E exc backups st' rest
      | RAbort st' => RAbort st'
      end
  end.

(** [main]; [listing] is the backup directory in sorted order, of which
    [glob('*.png')] keeps the names ending in [.png]. *)
Definition main (E : Env) (exc : string -> string)
    (backups cards : gmap string bytes) (listing : list string) : r_outcome :=
  loop E exc backups (mkRState cards 0 0 0)
       (List.filter (fun n => Pathlib.endswith n ".png") listing).

End RestoreAndConvert.

(** ** [update_html_references.py] *)

Module UpdateHtml.

(** The two calls made on [re.compile(re.escape(name), re.IGNORECASE)]:
    [re_search name text] is whether [pattern.search(text)] finds the
    name, [re_sub name repl text] is [pattern.sub(repl, text)]. *)
Record Regex := mkRegex {
  re_search : string -> string -> bool;
  re_sub : string -> string -> string -> string
}.

(** The dictionary [png_to_jpg] (lines 25-30), in insertion order;
    [listing] is [cards/], whose names are distinct. *)
Definition png_to_jpg (cards : gmap string bytes) (listing : list string)
  : list (string * string) :=
  flat_map
    (fun png_name =>
       let jpg_name := Pathlib.with_suffix png_name ".jpg" in
       if FS.exists_ cards jpg_name then [(png_name, jpg_name)] else [])
    (List.filter (fun n => Pathlib.endswith n ".png") listing).

(** The loop of lines 37-44: the text and [updated_count] *)
Fixpoint rewrite (R : Regex) (mapping : list (string * string))
    (content : string) (updated_count : Z) : string * Z :=
  match mapping with
  | [] => (content, updated_count)
  | (png_name, jpg_name) :: rest =>
      if re_search R png_name content
      then rewrite R rest (re_sub R png_name jpg_name content)
                   (updated_count + 1)
      else rewrite R rest content updated_count
  end.

(** [update_html_references()]: what is written back to [index.html],
    if anything.  [html] is the document ([None] when it is missing) and
    [cards_dir] the directory with its listing ([None] when missing). *)
Definition update_html_references (R : Regex) (html : option string)
    (cards_dir : option (gmap string bytes * list string)) : option string :=
  match html with
  | None => None
  | Some content =>
      match cards_dir with
      | None => None
      | Some (cards, listing) =>
          match png_to_jpg cards listing with
          | [] => None
          | mapping =>
              let '(content', updated_count) := rewrite R mapping content 0 in
              if updated_count >? 0 then Some content' else None
          end
      end
  end.

End UpdateHtml.

(** ** More vocabulary *)

(** In [compress_images_aggressive.py], asset [name] holds [orig],
    decodes to a picture whose transparency is [alpha], and [img.save]
    writes the candidate [cand] to [final]. *)
Definition aggressive_encodes (C : Codec) (cards : gmap string bytes)
    (name : string) (orig : bytes) (alpha : bool) (final : string)
    (cand : bytes) : Prop :=
  cards !! name = Some orig
  /\ exists img img' params,
       cd_open C orig = Some img
       /\ has_transparency img = Some alpha
       /\ Aggressive.plan C (resize_step C img (1200, 2000)) alpha
                          name (temp_name name) 90 false
          = (img', final, params)
       /\ cd_save C img' params = Saved cand.

(** The picture [convert_to_webp.py] and [restore_and_convert.py] hand
    to [img.save] *)
Definition rgb_prepared (C : Codec) (img : Image) : Image :=
  resize_step C
    (if negb (String.eqb (mode img) "RGB") then cd_convert C img "RGB" else img)
    (1200, 2000).

(** In [convert_to_webp.py], asset [name] holds [orig], decodes, and
    [img.save] writes the candidate [cand]. *)
Definition convert_encodes (C : Codec) (cards : gmap string bytes)
    (name : string) (orig cand : bytes) : Prop :=
  cards !! name = Some orig
  /\ exists img,
       cd_open C orig = Some img
       /\ cd_save C (rgb_prepared C img) (WEBP 85 6) = Saved cand.

(** More pictures and collections *)
Module Scenario2.

(** A transparent PNG of 10 bytes *)
Definition alpha_env (out : save_outcome) : Env :=
  Sample.env Scenario.edge_rgba out.

Definition one_jpg : gmap string bytes := {[ "x.jpg" := Sample.blob 10 ]}.

(** A regular expression engine for plain ASCII text that only knows
    the exact spelling of a name *)
Definition exact_regex : UpdateHtml.Regex :=
  UpdateHtml.mkRegex
    (fun name text => Str.contains name text)
    (fun name repl text => Str.replace text name repl).

End Scenario2.


(** The names of a listing that [restore_and_convert.py] works on *)
Definition restorable (listing : list string) : list string :=
  List.filter (fun n => negb (Pathlib.startswith n ".temp_"))
              (List.filter (fun n => Pathlib.endswith n ".png") listing).

(** The three ways a pass that reached [compress_image] can end *)
Inductive conservative_ending (st st' : State) (name : string) : Prop :=
| ended_failed :
    failed st' = failed st + 1 -> processed st' = processed st ->
    total_original st' = total_original st ->
    total_compressed st' = total_compressed st ->
    fs st' !! name = fs st !! name ->
    conservative_ending st st' name
| ended_discarded :
    processed st' = processed st + 1 -> failed st' = failed st ->
    total_original st' = total_original st ->
    total_compressed st' = total_compressed st ->
    fs st' !! name = fs st !! name -> is_Some (fs st !! name) ->
    conservative_ending st st' name
| ended_committed (orig cand : bytes) :
    processed st' = processed st + 1 -> failed st' = failed st ->
    total_original st' = total_original st + Z.of_nat (length orig) ->
    total_compressed st' = total_compressed st + Z.of_nat (length cand) ->
    fs st !! name = Some orig -> fs st' !! name = Some cand ->
    (length cand < length orig)%nat ->
    conservative_ending st st' name.

(** Two facts about image files that hold of every image library: an
    empty file does not decode, and a save that completes never leaves
    an empty file. *)
Record image_files_nonempty (C : Codec) : Prop := {
  decoded_file_nonempty : forall data img,
    cd_open C data = Some img -> data <> [];
  saved_file_nonempty : forall img params out,
    cd_save C img params = Saved out -> out <> []
}.

(** A codec with those two properties: it decodes every non-empty file
    to [img], and its [save] writes one byte followed by [rest]. *)
Module Realistic.

Definition codec (img : Image) (rest : bytes) : Codec :=
  mkCodec (fun data => match data with [] => None | _ :: _ => Some img end)
          (fun i m => mkImage m (size i) (bands i))
          (fun i _ => i)
          (fun _ _ => Saved (Byte.x2a :: rest)).

Definition env (img : Image) (rest : bytes) : Env :=
  mkEnv (codec img rest) (fun _ => true).

End Realistic.

(** * Properties *)

(** ** File names *)

Lemma length_append (a b : string) :
  String.length (a +:+ b) = (String.length a + String.length b)%nat.
Proof.
  induction a as [|c a IH]; [reflexivity|].
  change (String c a +:+ b) with (String c (a +:+ b)).
  simpl. now rewrite IH.
Qed.

Lemma temp_name_neq (name : string) : temp_name name <> name.
Proof.
  intros H. apply (f_equal String.length) in H.
  unfold temp_name in H. rewrite length_append in H. simpl in H. lia.
Qed.

Lemma temp_name_startswith (name : string) :
  Pathlib.startswith (temp_name name) ".temp_" = true.
Proof.
  unfold Pathlib.startswith, temp_name. destruct name; reflexivity.
Qed.

Lemma temp_name_not_live (cards : gmap string bytes) (name : string) :
  no_temp_names cards -> cards !! temp_name name = None.
Proof.
  intros H. destruct (cards !! temp_name name) eqn:Hl; [|reflexivity].
  specialize (H (temp_name name) (ex_intro _ _ Hl)).
  rewrite temp_name_startswith in H. discriminate.
Qed.

(** ** Transparency classifier *)

Lemma existsb_below (alpha : list Z) :
  existsb (fun pixel => pixel <? 255) alpha = true
  <-> exists pixel, pixel ∈ alpha /\ pixel < 255.
Proof.
  rewrite existsb_exists. split.
  - intros (p & Hin & Hlt). exists p. split; [now apply list_elem_of_In|lia].
  - intros (p & Hin & Hlt). exists p. split; [now apply list_elem_of_In|lia].
Qed.

(** C4, the claim as stated fails: a grayscale+alpha picture whose alpha
    plane is 255 everywhere is classified as transparent. *)
Lemma opaque_la_classified_transparent :
  mode Scenario.opaque_la = "LA"
  /\ bands Scenario.opaque_la !! 1%nat = Some [255; 255]
  /\ ~ (has_transparency Scenario.opaque_la = Some true
        <-> exists pixel, pixel ∈ [255; 255] /\ pixel < 255).
Proof.
  split; [reflexivity|]. split; [reflexivity|].
  intros [H _]. destruct (H eq_refl) as (p & Hin & Hlt).
  apply list_elem_of_In in Hin. simpl in Hin. lia.
Qed.

(** C4, amended: [has_transparency] answers False for every mode other
    than RGBA and LA; for RGBA it answers True exactly when some sample of
    the alpha plane (band 3) is strictly below 255; for LA it answers True
    whatever the alpha plane holds. *)
Theorem has_transparency_by_mode (img : Image) :
  (mode img <> "RGBA" -> mode img <> "LA" -> has_transparency img = Some false)
  /\ (mode img = "LA" -> has_transparency img = Some true)
  /\ (mode img = "RGBA" -> forall alpha, bands img !! 3%nat = Some alpha ->
        exists b, has_transparency img = Some b
                  /\ (b = true <-> exists pixel, pixel ∈ alpha /\ pixel < 255)).
Proof.
  unfold has_transparency. repeat split.
  - intros H1 H2.
    apply String.eqb_neq in H1. apply String.eqb_neq in H2.
    now rewrite H1, H2.
  - intros H. rewrite H. reflexivity.
  - intros H alpha Ha. rewrite H, Ha. simpl.
    eexists. split; [reflexivity|]. apply existsb_below.
Qed.

Lemma has_transparency_by_mode_witness :
  has_transparency Scenario.edge_rgba = Some true
  /\ has_transparency Scenario.opaque_la = Some true
  /\ has_transparency Sample.opaque_rgb = Some false.
Proof.
  destruct (has_transparency_by_mode Scenario.edge_rgba) as (_ & _ & Hrgba).
  destruct (has_transparency_by_mode Scenario.opaque_la) as (_ & Hla & _).
  destruct (has_transparency_by_mode Sample.opaque_rgb) as (Hrgb & _ & _).
  split; [|split].
  - destruct (Hrgba eq_refl [255; 254] eq_refl) as (b & Hb & Hiff).
    rewrite Hb. f_equal. apply Hiff. exists 254.
    split; [apply list_elem_of_In; simpl; auto | lia].
  - apply Hla. reflexivity.
  - apply Hrgb; discriminate.
Defined.

(** ** Directory operations *)

Lemma exists_true (m : gmap string bytes) (p : string) :
  FS.exists_ m p = true <-> is_Some (m !! p).
Proof. unfold FS.exists_. apply bool_decide_eq_true. Qed.

Lemma exists_false (m : gmap string bytes) (p : string) :
  FS.exists_ m p = false <-> m !! p = None.
Proof.
  unfold FS.exists_. rewrite bool_decide_eq_false.
  rewrite <- eq_None_not_Some. reflexivity.
Qed.

Lemma unlink_if_exists_gone (m : gmap string bytes) (p : string) :
  FS.unlink_if_exists m p !! p = None.
Proof.
  unfold FS.unlink_if_exists. destruct (FS.exists_ m p) eqn:He.
  - apply lookup_delete_eq.
  - now apply exists_false.
Qed.

Lemma unlink_if_exists_other (m : gmap string bytes) (p q : string) :
  p <> q -> FS.unlink_if_exists m p !! q = m !! q.
Proof.
  intros Hne. unfold FS.unlink_if_exists.
  destruct (FS.exists_ m p); [now apply lookup_delete_ne | reflexivity].
Qed.

(** ** Saving and measuring *)

Lemma save_and_measure_other C cards img params inp out p :
  p <> out ->
  fst (save_and_measure C cards img params inp out) !! p = cards !! p.
Proof.
  intros Hne. unfold save_and_measure, FS.write.
  destruct (cd_save C img params) as [data|[partial|]]; simpl.
  - destruct (FS.st_size _ inp) as [o|];
      [destruct (FS.st_size _ out) as [c|]; [destruct (o =? 0)|]|];
      simpl; now apply lookup_insert_ne.
  - now apply lookup_insert_ne.
  - reflexivity.
Qed.

Lemma save_and_measure_saved C cards img params inp out orig cand :
  cd_save C img params = Saved cand ->
  inp <> out ->
  cards !! inp = Some orig ->
  save_and_measure C cards img params inp out
  = (<[out := cand]> cards,
     if Z.of_nat (length orig) =? 0 then None
     else Some (Z.of_nat (length orig), Z.of_nat (length cand))).
Proof.
  intros Hs Hne Hin. unfold save_and_measure, FS.write, FS.st_size.
  rewrite Hs. rewrite lookup_insert_ne by congruence.
  rewrite Hin, lookup_insert_eq. simpl.
  now destruct (Z.of_nat (length orig) =? 0).
Qed.

Lemma save_and_measure_error C cards img params inp out partial :
  cd_save C img params = SaveError partial ->
  save_and_measure C cards img params inp out
  = (match partial with
     | Some data => <[out := data]> cards
     | None => cards
     end, None).
Proof.
  intros Hs. unfold save_and_measure, FS.write. rewrite Hs.
  now destruct partial.
Qed.

Lemma save_and_measure_sizes C cards img params inp out cards' o c :
  save_and_measure C cards img params inp out = (cards', Some (o, c)) ->
  o <> 0 /\ FS.st_size cards' inp = Some o /\ FS.st_size cards' out = Some c
  /\ exists cand, cd_save C img params = Saved cand
                  /\ cards' = <[out := cand]> cards.
Proof.
  unfold save_and_measure, FS.write.
  destruct (cd_save C img params) as [data|[partial|]]; try discriminate.
  destruct (FS.st_size _ inp) as [o'|] eqn:Ho; [|discriminate].
  destruct (FS.st_size _ out) as [c'|] eqn:Hc; [|discriminate].
  destruct (o' =? 0) eqn:Hz; [discriminate|].
  intros H. injection H as <- <- <-.
  apply Z.eqb_neq in Hz. repeat split; eauto.
Qed.

Lemma save_and_measure_empty C cards img params inp out :
  inp <> out ->
  cards !! inp = Some [] ->
  snd (save_and_measure C cards img params inp out) = None.
Proof.
  intros Hne Hin.
  destruct (cd_save C img params) as [data|partial] eqn:Hs.
  - rewrite (save_and_measure_saved _ _ _ _ _ _ [] data Hs Hne Hin).
    reflexivity.
  - rewrite (save_and_measure_error _ _ _ _ _ _ _ Hs). reflexivity.
Qed.

(** ** [compress_images.py]: what [compress_image] returns *)

Lemma conservative_compress_other C cards inp out q ms p :
  p <> out ->
  fst (Conservative.compress_image C cards inp out q ms) !! p = cards !! p.
Proof.
  intros Hne. unfold Conservative.compress_image.
  destruct (cards !! inp) as [data|]; [|reflexivity].
  destruct (cd_open C data) as [img|]; [|reflexivity].
  now apply save_and_measure_other.
Qed.

Lemma conservative_compress_encodes C cards name orig cand :
  conservative_encodes C cards name orig cand ->
  Conservative.compress_image C cards name (temp_name name) 85 (2000, 3000)
  = (<[temp_name name := cand]> cards,
     if Z.of_nat (length orig) =? 0 then None
     else Some (Z.of_nat (length orig), Z.of_nat (length cand))).
Proof.
  intros (Hin & img & Hopen & Hsave).
  unfold Conservative.compress_image. rewrite Hin, Hopen.
  apply save_and_measure_saved; auto.
  intros H. symmetry in H. now apply temp_name_neq in H.
Qed.

Lemma conservative_compress_decode_fails C cards name out q ms :
  decode_fails C cards name ->
  Conservative.compress_image C cards name out q ms = (cards, None).
Proof.
  intros (data & Hin & Hopen).
  unfold Conservative.compress_image. now rewrite Hin, Hopen.
Qed.

Lemma conservative_compress_encode_fails C cards name partial :
  conservative_encode_fails C cards name partial ->
  Conservative.compress_image C cards name (temp_name name) 85 (2000, 3000)
  = (match partial with
     | Some data => <[temp_name name := data]> cards
     | None => cards
     end, None).
Proof.
  intros (data & img & Hin & Hopen & Hsave).
  unfold Conservative.compress_image. rewrite Hin, Hopen.
  now apply save_and_measure_error.
Qed.

Lemma conservative_compress_empty C cards name q ms :
  cards !! name = Some [] ->
  snd (Conservative.compress_image C cards name (temp_name name) q ms) = None.
Proof.
  intros Hin. unfold Conservative.compress_image. rewrite Hin.
  destruct (cd_open C []) as [img|]; [|reflexivity].
  apply save_and_measure_empty; auto.
  intros H. symmetry in H. now apply temp_name_neq in H.
Qed.

(** ** The backup step *)

Lemma set_backup_same (st : State) : set_backup st (backup st) = st.
Proof. now destruct st. Qed.

Lemma ensure_backup_inv E st name st1 :
  ensure_backup E st name = Some st1 ->
  st1 = set_backup st (backup st1)
  /\ ((is_Some (backup st !! name) /\ backup st1 = backup st)
      \/ (backup st !! name = None
          /\ exists data, fs st !! name = Some data
                          /\ copy2_ok E name = true
                          /\ backup st1 = <[name := data]> (backup st))).
Proof.
  unfold ensure_backup.
  destruct (FS.exists_ (backup st) name) eqn:He.
  - intros H. injection H as <-. rewrite set_backup_same.
    split; [reflexivity|]. left. split; [now apply exists_true|reflexivity].
  - destruct (fs st !! name) as [data|] eqn:Hin; [|discriminate].
    destruct (copy2_ok E name) eqn:Hc; [|discriminate].
    intros H. injection H as <-. split; [reflexivity|]. right.
    split; [now apply exists_false|]. now exists data.
Qed.

Lemma ensure_backup_fs E st name st1 :
  ensure_backup E st name = Some st1 ->
  fs st1 = fs st /\ total_original st1 = total_original st
  /\ total_compressed st1 = total_compressed st
  /\ processed st1 = processed st /\ failed st1 = failed st
  /\ converted st1 = converted st
  /\ converted_to_jpg st1 = converted_to_jpg st.
Proof.
  intros H. apply ensure_backup_inv in H as [-> _]. now destruct st.
Qed.

(** ** [compress_images.py]: one pass of the loop *)

Lemma conservative_session_unfold E st name st1 :
  is_image name = true ->
  ensure_backup E st name = Some st1 ->
  Conservative.session E st name
  = Conservative.decide
      (set_fs st1 (fst (Conservative.compress_image
                          (codec E) (fs st) name (temp_name name)
                          85 (2000, 3000))))
      name (temp_name name)
      (snd (Conservative.compress_image
              (codec E) (fs st) name (temp_name name) 85 (2000, 3000))).
Proof.
  intros Him Hb. unfold Conservative.session. rewrite Him, Hb. simpl.
  destruct (ensure_backup_fs _ _ _ _ Hb) as (-> & _).
  now destruct (Conservative.compress_image _ _ _ _ _ _).
Qed.

Lemma conservative_decide_temp_gone st name r :
  fs (state_of (Conservative.decide st name (temp_name name) r))
    !! temp_name name = None.
Proof.
  pose proof (temp_name_neq name) as Hne.
  assert (Hfail : fs (incr_failed
                        (set_fs st (FS.unlink_if_exists (fs st) (temp_name name))))
                    !! temp_name name = None)
    by (simpl; apply unlink_if_exists_gone).
  unfold Conservative.decide, FS.replace, FS.unlink.
  destruct r as [[o c]|]; [|exact Hfail].
  destruct (truthy o && truthy c); [|exact Hfail].
  destruct (c <? o); destruct (fs st !! temp_name name) eqn:Ht; simpl; auto.
  - rewrite lookup_insert_ne by congruence. apply lookup_delete_eq.
  - apply lookup_delete_eq.
Qed.

Lemma conservative_decide_failure st name :
  Conservative.decide st name (temp_name name) None
  = Continue (incr_failed
                (set_fs st (FS.unlink_if_exists (fs st) (temp_name name)))).
Proof. reflexivity. Qed.

Lemma conservative_session_failure E st name st1 :
  is_image name = true ->
  ensure_backup E st name = Some st1 ->
  snd (Conservative.compress_image
         (codec E) (fs st) name (temp_name name) 85 (2000, 3000)) = None ->
  exists st', Conservative.session E st name = Continue st'
              /\ failed st' = failed st + 1
              /\ processed st' = processed st
              /\ total_original st' = total_original st
              /\ total_compressed st' = total_compressed st
              /\ fs st' !! temp_name name = None
              /\ fs st' !! name = fs st !! name
              /\ backup st' = backup st1.
Proof.
  intros Him Hb Hr.
  rewrite (conservative_session_unfold _ _ _ _ Him Hb), Hr.
  rewrite conservative_decide_failure.
  destruct (ensure_backup_fs _ _ _ _ Hb) as (Hfs & Hto & Htc & Hp & Hf & _).
  eexists. split; [reflexivity|]. simpl.
  repeat split; try congruence.
  - apply unlink_if_exists_gone.
  - rewrite unlink_if_exists_other by apply temp_name_neq.
    apply conservative_compress_other.
    intros H. symmetry in H. now apply temp_name_neq in H.
Qed.

Lemma st_size_zero (m : gmap string bytes) (p : string) :
  FS.st_size m p = Some 0 <-> m !! p = Some [].
Proof.
  unfold FS.st_size. destruct (m !! p) as [data|]; simpl.
  - split; intros H.
    + injection H as H. destruct data; [reflexivity|simpl in H; lia].
    + now injection H as ->.
  - split; discriminate.
Qed.

(** C10: an asset whose file is empty ends its session under [failed] and
    not under [processed], whatever the codec does with it: in
    [compress_image] the division by the original size raises and the
    [except] clause answers the absent result, and the test of [main]
    takes a zero original size exactly as it takes the absent result. *)
Theorem empty_original_counts_as_failed E st st1 name :
  is_image name = true ->
  ensure_backup E st name = Some st1 ->
  FS.st_size (fs st) name = Some 0 ->
  snd (Conservative.compress_image
         (codec E) (fs st) name (temp_name name) 85 (2000, 3000)) = None
  /\ (exists st', Conservative.session E st name = Continue st'
                  /\ failed st' = failed st + 1
                  /\ processed st' = processed st)
  /\ (forall st0 c,
        Conservative.decide st0 name (temp_name name) (Some (0, c))
        = Conservative.decide st0 name (temp_name name) None).
Proof.
  intros Him Hb Hz. apply st_size_zero in Hz.
  pose proof (conservative_compress_empty (codec E) _ _ 85 (2000, 3000) Hz)
    as Hr.
  split; [exact Hr|]. split; [|reflexivity].
  destruct (conservative_session_failure _ _ _ _ Him Hb Hr)
    as (st' & Hs & Hf & Hp & _).
  now exists st'.
Qed.

Lemma empty_original_counts_as_failed_witness :
  exists st',
    Conservative.session (Sample.env Sample.opaque_rgb (Saved (Sample.blob 4)))
                         (initial Scenario.empty_png ∅) "a.png"
    = Continue st'
    /\ failed st' = 1 /\ processed st' = 0.
Proof.
  destruct (empty_original_counts_as_failed
              (Sample.env Sample.opaque_rgb (Saved (Sample.blob 4)))
              (initial Scenario.empty_png ∅)
              (set_backup (initial Scenario.empty_png ∅) {[ "a.png" := [] ]})
              "a.png") as (_ & H & _); [reflexivity ..|].
  exact H.
Defined.

Lemma size_nonzero (data : bytes) : data <> [] -> Z.of_nat (length data) <> 0.
Proof. destruct data; [congruence|simpl; lia]. Qed.

Lemma truthy_nonzero (n : Z) : n <> 0 -> truthy n = true.
Proof. intros H. unfold truthy. now apply Z.eqb_neq in H as ->. Qed.

(** What a session of [compress_images.py] does once the candidate has
    been written: commit when it is strictly smaller, discard otherwise. *)
Lemma conservative_session_encoded E st st1 name orig cand :
  is_image name = true ->
  ensure_backup E st name = Some st1 ->
  conservative_encodes (codec E) (fs st) name orig cand ->
  orig <> [] -> cand <> [] ->
  exists st',
    Conservative.session E st name = Continue st'
    /\ processed st' = processed st + 1
    /\ failed st' = failed st
    /\ fs st' !! temp_name name = None
    /\ backup st' = backup st1
    /\ if Z.of_nat (length cand) <? Z.of_nat (length orig)
       then fs st' !! name = Some cand
            /\ total_original st' = total_original st + Z.of_nat (length orig)
            /\ total_compressed st'
               = total_compressed st + Z.of_nat (length cand)
       else fs st' !! name = Some orig
            /\ total_original st' = total_original st
            /\ total_compressed st' = total_compressed st.
Proof.
  intros Him Hb Henc Ho Hc.
  pose proof (temp_name_neq name) as Hne.
  destruct (ensure_backup_fs _ _ _ _ Hb) as (Hfs & Hto & Htc & Hp & Hf & _).
  rewrite (conservative_session_unfold _ _ _ _ Him Hb).
  rewrite (conservative_compress_encodes _ _ _ _ _ Henc).
  apply size_nonzero in Ho, Hc.
  destruct (Z.of_nat (length orig) =? 0) eqn:Hz;
    [apply Z.eqb_eq in Hz; contradiction|].
  simpl. unfold Conservative.decide.
  rewrite (truthy_nonzero _ Ho), (truthy_nonzero _ Hc). simpl.
  destruct Henc as (Hin & _).
  destruct (Z.of_nat (length cand) <? Z.of_nat (length orig)).
  - unfold FS.replace. rewrite lookup_insert_eq.
    eexists. split; [reflexivity|]. simpl.
    repeat split; try congruence.
    + rewrite lookup_insert_ne by congruence. apply lookup_delete_eq.
    + apply lookup_insert_eq.
  - unfold FS.unlink. rewrite lookup_insert_eq.
    eexists. split; [reflexivity|]. simpl.
    repeat split; try congruence.
    + apply lookup_delete_eq.
    + rewrite lookup_delete_ne by congruence.
      rewrite lookup_insert_ne by congruence. exact Hin.
Qed.

(** ** Errors and the batch *)

(** C3, the claim as stated fails: with a backup directory that cannot be
    written, [shutil.copy2] raises in [main] outside every [try]; the run
    ends at the first asset, nothing is counted under [failed] and the
    second asset is never reached. *)
Lemma backup_failure_ends_the_run :
  ensure_backup
    (Sample.env_backup_unwritable Sample.opaque_rgb (Saved (Sample.blob 4)))
    (initial Scenario.two_png ∅) "a.png" = None
  /\ Conservative.main
       (Sample.env_backup_unwritable Sample.opaque_rgb (Saved (Sample.blob 4)))
       (initial Scenario.two_png ∅) ["a.png"; "b.png"]
     = Abort (initial Scenario.two_png ∅)
  /\ failed (initial Scenario.two_png ∅) = 0.
Proof. repeat split. Qed.

(** C3, amended: a decode or an encode error of an asset is caught inside
    [compress_image]; the asset is counted under [failed] (not under
    [processed]), its candidate path is left empty, and the loop goes on
    with the remaining assets.  A failure of the backup copy is not
    caught: it ends [main] at that asset, in the state reached so far. *)
Theorem codec_errors_counted_backup_error_ends_run E st name rest :
  is_image name = true ->
  (forall st1,
      ensure_backup E st name = Some st1 ->
      (decode_fails (codec E) (fs st) name
       \/ exists partial,
            conservative_encode_fails (codec E) (fs st) name partial) ->
      exists st',
        Conservative.session E st name = Continue st'
        /\ failed st' = failed st + 1
        /\ processed st' = processed st
        /\ fs st' !! temp_name name = None
        /\ Conservative.main E st (name :: rest)
           = Conservative.main E st' rest)
  /\ (ensure_backup E st name = None ->
      Conservative.main E st (name :: rest) = Abort st).
Proof.
  intros Him. split.
  - intros st1 Hb Herr.
    assert (Hr : snd (Conservative.compress_image
                        (codec E) (fs st) name (temp_name name)
                        85 (2000, 3000)) = None).
    { destruct Herr as [Hd|[partial He]].
      - now rewrite (conservative_compress_decode_fails _ _ _ _ _ _ Hd).
      - now rewrite (conservative_compress_encode_fails _ _ _ _ He). }
    destruct (conservative_session_failure _ _ _ _ Him Hb Hr)
      as (st' & Hs & Hf & Hp & _ & _ & Ht & _).
    exists st'. repeat split; auto.
    unfold Conservative.main. simpl. now rewrite Hs.
  - intros Hb. unfold Conservative.main, Conservative.session. simpl.
    now rewrite Him, Hb.
Qed.

(** ** Suffixes of candidate paths *)

Lemma rfind_dot_app_jpg (s : string) :
  Pathlib.rfind_dot (s +:+ ".jpg") = Some (String.length s).
Proof.
  induction s as [|c s IH]; [reflexivity|].
  change (String c s +:+ ".jpg") with (String c (s +:+ ".jpg")).
  simpl. now rewrite IH.
Qed.

Lemma substring_full (t : string) : substring 0 (String.length t) t = t.
Proof. induction t as [|c t IH]; [reflexivity|]. simpl. now rewrite IH. Qed.

Lemma substring_app_tail (s t : string) :
  substring (String.length s) (String.length t) (s +:+ t) = t.
Proof.
  induction s as [|c s IH]; [apply substring_full|].
  change (String c s +:+ t) with (String c (s +:+ t)). simpl. exact IH.
Qed.

Lemma length_substring_le (n m : nat) (s : string) :
  (String.length (substring n m s) <= m)%nat.
Proof.
  revert n m. induction s as [|c s IH]; intros n m.
  - destruct n, m; simpl; lia.
  - destruct n as [|n].
    + destruct m as [|m]; simpl; [lia|]. specialize (IH 0%nat m). lia.
    + simpl. apply IH.
Qed.

Lemma suffix_app_jpg (s : string) :
  s <> EmptyString -> Pathlib.suffix (s +:+ ".jpg") = ".jpg".
Proof.
  intros Hs. unfold Pathlib.suffix.
  rewrite rfind_dot_app_jpg, length_append.
  assert (0 < String.length s)%nat as Hlen
      by (destruct s; [congruence|simpl; lia]).
  change (String.length ".jpg") with 4%nat.
  replace (0 <? String.length s)%nat with true
    by (symmetry; apply Nat.ltb_lt; lia).
  replace (String.length s <? String.length s + 4 - 1)%nat with true
    by (symmetry; apply Nat.ltb_lt; lia).
  simpl. replace (String.length s + 4 - String.length s)%nat with 4%nat by lia.
  apply (substring_app_tail s ".jpg").
Qed.

Lemma suffix_shorter (p : string) :
  p <> EmptyString ->
  (String.length (Pathlib.suffix p) < String.length p)%nat.
Proof.
  intros Hp.
  assert (0 < String.length p)%nat as Hlen
      by (destruct p; [congruence|simpl; lia]).
  unfold Pathlib.suffix.
  destruct (Pathlib.rfind_dot p) as [i|]; [|simpl; lia].
  destruct ((0 <? i)%nat && (i <? String.length p - 1)%nat) eqn:Hc;
    [|simpl; lia].
  apply andb_prop in Hc as [Hi _]. apply Nat.ltb_lt in Hi.
  pose proof (length_substring_le i (String.length p - i) p). lia.
Qed.

Lemma suffix_of_converted_candidate (name : string) :
  Pathlib.suffix (Pathlib.with_suffix (temp_name name) ".jpg") = ".jpg".
Proof.
  unfold Pathlib.with_suffix. apply suffix_app_jpg.
  assert (temp_name name <> EmptyString) as Hne by discriminate.
  pose proof (suffix_shorter _ Hne) as Hlt.
  destruct (String.length (temp_name name)
            - String.length (Pathlib.suffix (temp_name name)))%nat
    as [|k] eqn:Hk; [lia|].
  unfold temp_name.
  change (".temp_" +:+ name) with (String "." ("temp_" +:+ name)).
  simpl. discriminate.
Qed.

(** ** [compress_images_aggressive.py]: one pass of the loop *)

Lemma aggressive_plan_output C img has_alpha name jq :
  snd (fst (Aggressive.plan C img has_alpha name (temp_name name) jq false))
  = temp_name name
  \/ (snd (fst (Aggressive.plan C img has_alpha name (temp_name name) jq false))
      = Pathlib.with_suffix (temp_name name) ".jpg"
      /\ Pathlib.lower (Pathlib.suffix name) = ".png").
Proof.
  unfold Aggressive.plan. simpl.
  destruct (String.eqb (Pathlib.lower (Pathlib.suffix name)) ".png") eqn:Hp;
    destruct has_alpha; simpl; auto.
  right. split; [reflexivity|]. now apply String.eqb_eq.
Qed.

Lemma aggressive_compress_result C cards name jq ms cards' o c final :
  Aggressive.compress_image C cards name (temp_name name) jq ms false
  = (cards', Some (o, c, final)) ->
  o <> 0
  /\ is_Some (cards' !! name)
  /\ is_Some (cards' !! final)
  /\ (Pathlib.suffix final = Pathlib.suffix name -> final = temp_name name).
Proof.
  unfold Aggressive.compress_image.
  destruct (cards !! name) as [data|]; [|discriminate].
  destruct (cd_open C data) as [img|]; [|discriminate].
  destruct (has_transparency img) as [has_alpha|]; [|discriminate].
  pose proof (aggressive_plan_output C (resize_step C img ms) has_alpha name jq)
    as Hplan.
  destruct (Aggressive.plan _ _ _ _ _ _ _) as [[img' final'] params].
  simpl in Hplan.
  destruct (save_and_measure _ _ _ _ _ _) as [cards'' [[o' c']|]] eqn:Hsm;
    [|discriminate].
  intros H. injection H as <- <- <- <-.
  apply save_and_measure_sizes in Hsm as (Ho & Hso & Hsc & _).
  unfold FS.st_size in Hso, Hsc.
  split; [exact Ho|]. split; [|split].
  - destruct (cards'' !! name); [eauto|discriminate].
  - destruct (cards'' !! final'); [eauto|discriminate].
  - intros Hsuf. destruct Hplan as [->|[-> Hpng]]; [reflexivity|].
    rewrite suffix_of_converted_candidate in Hsuf.
    rewrite <- Hsuf in Hpng. discriminate.
Qed.

Lemma aggressive_session_unfold E st name st1 :
  is_image name = true ->
  Pathlib.startswith name ".temp_" = false ->
  ensure_backup E st name = Some st1 ->
  Aggressive.session E st name
  = Aggressive.decide
      (set_fs st1 (fst (Aggressive.compress_image
                          (codec E) (fs st) name (temp_name name)
                          90 (1200, 2000) false)))
      name (temp_name name)
      (snd (Aggressive.compress_image
              (codec E) (fs st) name (temp_name name) 90 (1200, 2000) false)).
Proof.
  intros Him Ht Hb. unfold Aggressive.session. rewrite Him, Ht, Hb. simpl.
  destruct (ensure_backup_fs _ _ _ _ Hb) as (-> & _).
  now destruct (Aggressive.compress_image _ _ _ _ _ _ _).
Qed.

Lemma aggressive_session_measured E st st1 name cards o c final :
  is_image name = true ->
  Pathlib.startswith name ".temp_" = false ->
  ensure_backup E st name = Some st1 ->
  Aggressive.compress_image (codec E) (fs st) name (temp_name name)
                            90 (1200, 2000) false
  = (cards, Some (o, c, final)) ->
  c <> 0 ->
  exists st',
    Aggressive.session E st name = Continue st'
    /\ processed st' = processed st + 1
    /\ failed st' = failed st
    /\ if c <? o
       then total_original st' = total_original st + o
            /\ total_compressed st' = total_compressed st + c
       else total_original st' = total_original st
            /\ total_compressed st' = total_compressed st.
Proof.
  intros Him Ht Hb Hc Hcz.
  destruct (ensure_backup_fs _ _ _ _ Hb) as (Hfs & Hto & Htc & Hp & Hf & _).
  rewrite (aggressive_session_unfold _ _ _ _ Him Ht Hb), Hc. simpl.
  apply aggressive_compress_result in Hc as (Hoz & [d Hd] & [d' Hd'] & Hsuf).
  rewrite (truthy_nonzero _ Hoz), (truthy_nonzero _ Hcz). simpl.
  destruct (c <? o).
  - destruct (String.eqb (Pathlib.suffix final) (Pathlib.suffix name)) eqn:He;
      simpl.
    + apply String.eqb_eq in He. specialize (Hsuf He). subst final.
      unfold FS.replace. rewrite Hd'.
      eexists. split; [reflexivity|]. simpl. repeat split; congruence.
    + unfold FS.unlink. rewrite Hd.
      eexists. split; [reflexivity|]. simpl. repeat split; congruence.
  - eexists. split; [reflexivity|]. simpl. repeat split; congruence.
Qed.

(** ** Byte counters *)

(** C5, the claim as stated fails: a session that discards its candidate
    is counted under [processed] and leaves both byte totals as they
    were, although the asset that stays live has 10 bytes. *)
Lemma discard_leaves_byte_totals_unchanged :
  exists st,
    Conservative.main (Sample.env Sample.opaque_rgb (Saved (Sample.blob 12)))
                      (initial Scenario.one_png ∅) ["a.png"]
    = Continue st
    /\ processed st = 1 /\ failed st = 0
    /\ fs st !! temp_name "a.png" = None
    /\ FS.st_size (fs st) "a.png" = Some 10
    /\ total_original st = 0 /\ total_original st <> 0 + 10
    /\ total_compressed st = 0 /\ total_compressed st <> 0 + 10.
Proof.
  eexists. split; [reflexivity|]. vm_compute. repeat split; congruence.
Qed.

(** C5, amended: a session that commits adds the original's size to
    [total_original] and the candidate's size to [total_compressed] (in
    [compress_images.py] the candidate is then the file live under the
    asset's name); a session that discards changes neither total and is
    only counted under [processed]. *)
Theorem byte_totals_follow_commits_only :
  (forall E st st1 name orig cand,
      is_image name = true ->
      ensure_backup E st name = Some st1 ->
      conservative_encodes (codec E) (fs st) name orig cand ->
      orig <> [] -> cand <> [] ->
      exists st',
        Conservative.session E st name = Continue st'
        /\ processed st' = processed st + 1
        /\ if Z.of_nat (length cand) <? Z.of_nat (length orig)
           then fs st' !! name = Some cand
                /\ total_original st'
                   = total_original st + Z.of_nat (length orig)
                /\ total_compressed st'
                   = total_compressed st + Z.of_nat (length cand)
           else fs st' !! name = Some orig
                /\ total_original st' = total_original st
                /\ total_compressed st' = total_compressed st)
  /\ (forall E st st1 name cards o c final,
        is_image name = true ->
        Pathlib.startswith name ".temp_" = false ->
        ensure_backup E st name = Some st1 ->
        Aggressive.compress_image (codec E) (fs st) name (temp_name name)
                                  90 (1200, 2000) false
        = (cards, Some (o, c, final)) ->
        c <> 0 ->
        exists st',
          Aggressive.session E st name = Continue st'
          /\ processed st' = processed st + 1
          /\ if c <? o
             then total_original st' = total_original st + o
                  /\ total_compressed st' = total_compressed st + c
             else total_original st' = total_original st
                  /\ total_compressed st' = total_compressed st).
Proof.
  split.
  - intros E st st1 name orig cand Him Hb Henc Ho Hc.
    destruct (conservative_session_encoded _ _ _ _ _ _ Him Hb Henc Ho Hc)
      as (st' & Hs & Hp & _ & _ & _ & Hif).
    exists st'. auto.
  - intros E st st1 name cards o c final Him Ht Hb Hc Hcz.
    destruct (aggressive_session_measured _ _ _ _ _ _ _ _ Him Ht Hb Hc Hcz)
      as (st' & Hs & Hp & _ & Hif).
    exists st'. auto.
Qed.

Lemma byte_totals_follow_commits_only_witness :
  exists st',
    Conservative.session (Sample.env Sample.opaque_rgb (Saved (Sample.blob 4)))
                         (initial Scenario.one_png ∅) "a.png"
    = Continue st'
    /\ processed st' = 1
    /\ fs st' !! "a.png" = Some (Sample.blob 4)
    /\ total_original st' = 10
    /\ total_compressed st' = 4.
Proof.
  destruct (proj1 byte_totals_follow_commits_only
              (Sample.env Sample.opaque_rgb (Saved (Sample.blob 4)))
              (initial Scenario.one_png ∅)
              (set_backup (initial Scenario.one_png ∅)
                          {[ "a.png" := Sample.blob 10 ]})
              "a.png" (Sample.blob 10) (Sample.blob 4))
    as (st' & Hs & Hp & Hif).
  - reflexivity.
  - reflexivity.
  - split; [reflexivity|]. exists Sample.opaque_rgb. split; reflexivity.
  - discriminate.
  - discriminate.
  - assert (Hlt : (Z.of_nat (length (Sample.blob 4))
                   <? Z.of_nat (length (Sample.blob 10))) = true)
      by reflexivity.
    rewrite Hlt in Hif. destruct Hif as (Hlive & Hto & Htc).
    exists st'. repeat split; assumption.
Defined.

(** ** [compress_webp_aggressive.py]: one pass of the loop *)

Lemma webp_compress_encodes C cards name orig cand :
  webp_encodes C cards name orig cand ->
  WebpAggressive.compress_webp_aggressive
    C cards name (temp_name name) 75 (1000, 1667)
  = (<[temp_name name := cand]> cards,
     if Z.of_nat (length orig) =? 0 then (false, 0, 0)
     else (true, Z.of_nat (length orig), Z.of_nat (length cand))).
Proof.
  intros (Hin & img & Hopen & Hsave).
  unfold WebpAggressive.compress_webp_aggressive. rewrite Hin, Hopen.
  unfold webp_prepared in Hsave.
  rewrite (save_and_measure_saved _ _ _ _ _ _ orig cand Hsave); auto.
  - now destruct (Z.of_nat (length orig) =? 0).
  - intros H. symmetry in H. now apply temp_name_neq in H.
Qed.

Lemma webp_session_encoded E st st1 name orig cand :
  ensure_backup E st name = Some st1 ->
  webp_encodes (codec E) (fs st) name orig cand ->
  orig <> [] ->
  exists st',
    WebpAggressive.session E st name = Continue st'
    /\ converted st' = converted st + 1
    /\ failed st' = failed st
    /\ fs st' !! temp_name name = None
    /\ fs st' !! name
       = Some (if Z.of_nat (length cand) <? Z.of_nat (length orig)
               then cand else orig).
Proof.
  intros Hb Henc Ho.
  pose proof (temp_name_neq name) as Hne.
  destruct (ensure_backup_fs _ _ _ _ Hb) as (Hfs & _ & _ & _ & Hf & Hcv & _).
  unfold WebpAggressive.session. rewrite Hb, Hfs.
  rewrite (webp_compress_encodes _ _ _ _ _ Henc).
  apply size_nonzero in Ho.
  destruct (Z.of_nat (length orig) =? 0) eqn:Hz;
    [apply Z.eqb_eq in Hz; contradiction|].
  destruct Henc as (Hin & _).
  unfold WebpAggressive.decide. simpl.
  destruct (Z.of_nat (length cand) <? Z.of_nat (length orig)).
  - unfold FS.replace. rewrite lookup_insert_eq.
    eexists. split; [reflexivity|]. simpl. repeat split; try congruence.
    + rewrite lookup_insert_ne by congruence. apply lookup_delete_eq.
    + apply lookup_insert_eq.
  - unfold FS.unlink. rewrite lookup_insert_eq.
    eexists. split; [reflexivity|]. simpl. repeat split; try congruence.
    + apply lookup_delete_eq.
    + rewrite lookup_delete_ne by congruence.
      rewrite lookup_insert_ne by congruence. exact Hin.
Qed.

(** ** The commit rule *)

Lemma commit_rule_for_nonempty_files :
  (forall E st st1 name orig cand,
      is_image name = true ->
      ensure_backup E st name = Some st1 ->
      conservative_encodes (codec E) (fs st) name orig cand ->
      orig <> [] -> cand <> [] ->
      exists st',
        Conservative.session E st name = Continue st'
        /\ processed st' = processed st + 1
        /\ failed st' = failed st
        /\ fs st' !! temp_name name = None
        /\ fs st' !! name
           = Some (if Z.of_nat (length cand) <? Z.of_nat (length orig)
                   then cand else orig))
  /\ (forall E st st1 name orig cand,
        ensure_backup E st name = Some st1 ->
        webp_encodes (codec E) (fs st) name orig cand ->
        orig <> [] ->
        exists st',
          WebpAggressive.session E st name = Continue st'
          /\ converted st' = converted st + 1
          /\ failed st' = failed st
          /\ fs st' !! temp_name name = None
          /\ fs st' !! name
             = Some (if Z.of_nat (length cand) <? Z.of_nat (length orig)
                     then cand else orig)).
Proof.
  split.
  - intros E st st1 name orig cand Him Hb Henc Ho Hc.
    destruct (conservative_session_encoded _ _ _ _ _ _ Him Hb Henc Ho Hc)
      as (st' & Hs & Hp & Hf & Ht & _ & Hif).
    exists st'. repeat split; auto.
    destruct (Z.of_nat (length cand) <? Z.of_nat (length orig));
      now destruct Hif.
  - intros E st st1 name orig cand.
    apply webp_session_encoded.
Qed.

Lemma backup_step_goes_through E st name orig :
  fs st !! name = Some orig ->
  is_Some (backup st !! name) \/ copy2_ok E name = true ->
  exists st1, ensure_backup E st name = Some st1.
Proof.
  intros Hin Hcopy. unfold ensure_backup.
  destruct (FS.exists_ (backup st) name) eqn:He; [eauto|].
  rewrite Hin. apply exists_false in He.
  destruct Hcopy as [Hs|Hc].
  - rewrite He in Hs. now destruct Hs.
  - rewrite Hc. eauto.
Qed.

Lemma realistic_codec_nonempty (img : Image) (rest : bytes) :
  image_files_nonempty (Realistic.codec img rest).
Proof.
  split.
  - intros [|b data] img'; simpl; [discriminate|discriminate].
  - intros img' params out H. simpl in H. injection H as <-. discriminate.
Qed.

(** C6: for every asset whose encode succeeded, with a codec for which
    image files are never empty (no library decodes an empty file or
    completes a save with one) and a backup step that goes through, the
    commit decision compares the candidate's size to the original's: a
    strictly smaller candidate replaces the original; an equal or larger
    one is deleted and the original's bytes stay as they were; either
    way the candidate path is empty afterwards and the asset is counted
    as processed, not as failed.  ([compress_webp_aggressive.py] counts
    processed assets in [converted].) *)
Theorem commit_iff_candidate_strictly_smaller :
  (forall E st name orig cand,
      image_files_nonempty (codec E) ->
      is_image name = true ->
      is_Some (backup st !! name) \/ copy2_ok E name = true ->
      conservative_encodes (codec E) (fs st) name orig cand ->
      exists st',
        Conservative.session E st name = Continue st'
        /\ processed st' = processed st + 1
        /\ failed st' = failed st
        /\ fs st' !! temp_name name = None
        /\ fs st' !! name
           = Some (if Z.of_nat (length cand) <? Z.of_nat (length orig)
                   then cand else orig))
  /\ (forall E st name orig cand,
        image_files_nonempty (codec E) ->
        is_Some (backup st !! name) \/ copy2_ok E name = true ->
        webp_encodes (codec E) (fs st) name orig cand ->
        exists st',
          WebpAggressive.session E st name = Continue st'
          /\ converted st' = converted st + 1
          /\ failed st' = failed st
          /\ fs st' !! temp_name name = None
          /\ fs st' !! name
             = Some (if Z.of_nat (length cand) <? Z.of_nat (length orig)
                     then cand else orig)).
Proof.
  split.
  - intros E st name orig cand [Hopen Hsave] Him Hcopy Henc.
    pose proof Henc as (Hin & img & Ho & Hs).
    destruct (backup_step_goes_through E st name orig Hin Hcopy) as [st1 Hb].
    apply (proj1 commit_rule_for_nonempty_files E st st1 name orig cand);
      eauto.
  - intros E st name orig cand [Hopen Hsave] Hcopy Henc.
    pose proof Henc as (Hin & img & Ho & Hs).
    destruct (backup_step_goes_through E st name orig Hin Hcopy) as [st1 Hb].
    apply (proj2 commit_rule_for_nonempty_files E st st1 name orig cand);
      eauto.
Qed.

Lemma commit_iff_candidate_strictly_smaller_witness :
  (exists st',
     Conservative.session
       (Realistic.env Sample.opaque_rgb (Sample.blob 11))
       (initial Scenario.one_png ∅) "a.png"
     = Continue st'
     /\ processed st' = 1 /\ failed st' = 0
     /\ fs st' !! temp_name "a.png" = None
     /\ fs st' !! "a.png" = Some (Sample.blob 10))
  /\ (exists st',
        WebpAggressive.session
          (Realistic.env Sample.opaque_rgb (Sample.blob 3))
          (initial {[ "a.webp" := Sample.blob 10 ]} ∅) "a.webp"
        = Continue st'
        /\ converted st' = 1 /\ failed st' = 0
        /\ fs st' !! temp_name "a.webp" = None
        /\ fs st' !! "a.webp" = Some (Sample.blob 4)).
Proof.
  split.
  - apply (proj1 commit_iff_candidate_strictly_smaller
             (Realistic.env Sample.opaque_rgb (Sample.blob 11))
             (initial Scenario.one_png ∅)
             "a.png" (Sample.blob 10) (Sample.blob 12)).
    + apply realistic_codec_nonempty.
    + reflexivity.
    + right. reflexivity.
    + split; [reflexivity|]. exists Sample.opaque_rgb. split; reflexivity.
  - apply (proj2 commit_iff_candidate_strictly_smaller
             (Realistic.env Sample.opaque_rgb (Sample.blob 3))
             (initial {[ "a.webp" := Sample.blob 10 ]} ∅)
             "a.webp" (Sample.blob 10) (Sample.blob 4)).
    + apply realistic_codec_nonempty.
    + right. reflexivity.
    + split; [reflexivity|]. exists Sample.opaque_rgb. split; reflexivity.
Defined.

(** ** The resize step *)






Lemma codec_errors_counted_backup_error_ends_run_witness :
  exists st',
    Conservative.session Sample.env_undecodable
                         (initial Scenario.two_png ∅) "a.png"
    = Continue st'
    /\ failed st' = 1 /\ processed st' = 0
    /\ fs st' !! temp_name "a.png" = None
    /\ Conservative.main Sample.env_undecodable
                         (initial Scenario.two_png ∅) ["a.png"; "b.png"]
       = Conservative.main Sample.env_undecodable st' ["b.png"].
Proof.
  destruct (codec_errors_counted_backup_error_ends_run
              Sample.env_undecodable (initial Scenario.two_png ∅)
              "a.png" ["b.png"]) as [H _]; [reflexivity|].
  apply (H (set_backup (initial Scenario.two_png ∅)
                       {[ "a.png" := Sample.blob 10 ]})).
  - reflexivity.
  - left. exists (Sample.blob 10). split; reflexivity.
Defined.

(** ** The backup ledger *)

Lemma ensure_backup_keeps E st name st1 n b :
  ensure_backup E st name = Some st1 ->
  backup st !! n = Some b -> backup st1 !! n = Some b.
Proof.
  intros Hb Hn.
  apply ensure_backup_inv in Hb
    as [_ [[_ ->]|(Hnone & data & _ & _ & ->)]]; [exact Hn|].
  rewrite lookup_insert_ne; [exact Hn|]. congruence.
Qed.

Lemma conservative_decide_backup st name t r :
  backup (state_of (Conservative.decide st name t r)) = backup st.
Proof.
  unfold Conservative.decide, FS.replace, FS.unlink.
  destruct r as [[o c]|]; [|reflexivity].
  destruct (truthy o && truthy c); [|reflexivity].
  destruct (c <? o); destruct (fs st !! t); reflexivity.
Qed.


Lemma conservative_session_keeps E st name n b :
  backup st !! n = Some b ->
  backup (state_of (Conservative.session E st name)) !! n = Some b.
Proof.
  intros Hn. unfold Conservative.session.
  destruct (negb (is_image name)); [exact Hn|].
  destruct (String.eqb parent_name "backup_original"); [exact Hn|].
  destruct (ensure_backup E st name) as [st1|] eqn:Hb; [|exact Hn].
  destruct (Conservative.compress_image _ _ _ _ _ _) as [cards r].
  rewrite conservative_decide_backup. simpl.
  now apply (ensure_backup_keeps _ _ _ _ _ _ Hb).
Qed.


Section Loop.

Variable body : State -> string -> outcome.
Variable P : State -> Prop.
Hypothesis body_keeps : forall st name, P st -> P (state_of (body st name)).

Lemma for_each_keeps (listing : list string) (st : State) :
  P st -> P (state_of (for_each body st listing)).
Proof.
  revert st. induction listing as [|name rest IH]; intros st HP; [exact HP|].
  simpl. specialize (body_keeps st name HP).
  destruct (body st name) as [st'|st']; [now apply IH|exact body_keeps].
Qed.

End Loop.


(** ** Candidate paths *)

Lemma temp_name_inj (a b : string) : temp_name a = temp_name b -> a = b.
Proof.
  unfold temp_name.
  change (".temp_" +:+ a)
    with (String "." (String "t" (String "e" (String "m" (String "p"
            (String "_" a)))))).
  change (".temp_" +:+ b)
    with (String "." (String "t" (String "e" (String "m" (String "p"
            (String "_" b)))))).
  congruence.
Qed.

(** C9, the claim as stated fails for [convert_to_webp.py], which has no
    temporary path: the candidate of [x.jpg] is encoded straight to
    [x.webp].  With a live [x.webp] in the collection the encode target
    is a live asset; an encode that fails half-way leaves its truncated
    output there, and a candidate that is not smaller takes the live
    file with it when it is deleted. *)
Lemma convert_to_webp_encodes_onto_live_name :
  ConvertToWebp.webp_file "x.jpg" = "x.webp"
  /\ Pathlib.startswith (ConvertToWebp.webp_file "x.jpg") ".temp_" = false
  /\ Scenario.jpg_beside_webp !! ConvertToWebp.webp_file "x.jpg"
     = Some (Sample.blob 3)
  /\ (exists st,
        ConvertToWebp.main
          (Sample.env Sample.opaque_rgb (SaveError (Some (Sample.blob 1))))
          (initial Scenario.jpg_beside_webp ∅) ["x.jpg"; "x.webp"]
        = Continue st
        /\ failed st = 1
        /\ fs st !! "x.webp" = Some (Sample.blob 1))
  /\ (exists st,
        ConvertToWebp.main
          (Sample.env Sample.opaque_rgb (Saved (Sample.blob 12)))
          (initial Scenario.jpg_beside_webp ∅) ["x.jpg"; "x.webp"]
        = Continue st
        /\ converted st = 1
        /\ fs st !! "x.webp" = None).
Proof.
  split; [reflexivity|]. split; [reflexivity|]. split; [reflexivity|].
  split; (eexists; split; [reflexivity|]); vm_compute; split; reflexivity.
Qed.

(** C9, amended: in [compress_images.py] the candidate of an asset is
    encoded to the path [.temp_] followed by the asset's name.  That path
    is a function of the name, different for different assets, never the
    asset's own path, and free whenever no live file carries the
    [.temp_] prefix; [compress_image] writes to no other path; and after
    a decode or encode error the session leaves nothing at that path,
    truncated output included. *)
Theorem candidate_goes_to_temporary_path E st name :
  temp_name name <> name
  /\ Pathlib.startswith (temp_name name) ".temp_" = true
  /\ (forall other, temp_name other = temp_name name -> other = name)
  /\ (no_temp_names (fs st) -> fs st !! temp_name name = None)
  /\ (forall p, p <> temp_name name ->
        fst (Conservative.compress_image (codec E) (fs st) name
                                         (temp_name name) 85 (2000, 3000))
          !! p
        = fs st !! p)
  /\ (is_image name = true ->
      forall st1, ensure_backup E st name = Some st1 ->
      (decode_fails (codec E) (fs st) name
       \/ exists partial,
            conservative_encode_fails (codec E) (fs st) name partial) ->
      exists st', Conservative.session E st name = Continue st'
                  /\ fs st' !! temp_name name = None
                  /\ fs st' !! name = fs st !! name).
Proof.
  split; [apply temp_name_neq|].
  split; [apply temp_name_startswith|].
  split; [intros other; apply temp_name_inj|].
  split; [apply temp_name_not_live|].
  split; [intros p Hp; now apply conservative_compress_other|].
  intros Him st1 Hb Herr.
  assert (Hr : snd (Conservative.compress_image
                      (codec E) (fs st) name (temp_name name)
                      85 (2000, 3000)) = None).
  { destruct Herr as [Hd|[partial He]].
    - now rewrite (conservative_compress_decode_fails _ _ _ _ _ _ Hd).
    - now rewrite (conservative_compress_encode_fails _ _ _ _ He). }
  destruct (conservative_session_failure _ _ _ _ Him Hb Hr)
    as (st' & Hs & _ & _ & _ & _ & Ht & Hn & _).
  exists st'. auto.
Qed.

Lemma candidate_goes_to_temporary_path_witness :
  Scenario.one_png !! temp_name "a.png" = None
  /\ exists st',
       Conservative.session
         (Sample.env Sample.opaque_rgb (SaveError (Some (Sample.blob 1))))
         (initial Scenario.one_png ∅) "a.png"
       = Continue st'
       /\ fs st' !! temp_name "a.png" = None
       /\ fs st' !! "a.png" = Some (Sample.blob 10).
Proof.
  destruct (candidate_goes_to_temporary_path
              (Sample.env Sample.opaque_rgb (SaveError (Some (Sample.blob 1))))
              (initial Scenario.one_png ∅) "a.png")
    as (_ & _ & _ & Hfree & _ & Hfail).
  split.
  - apply Hfree. intros p [d Hd]. simpl in Hd. unfold Scenario.one_png in Hd.
    destruct (decide (p = "a.png")) as [->|Hne]; [reflexivity|].
    rewrite lookup_singleton_ne in Hd by congruence. discriminate.
  - apply (Hfail eq_refl
                 (set_backup (initial Scenario.one_png ∅)
                             {[ "a.png" := Sample.blob 10 ]})).
    + reflexivity.
    + right. exists (Some (Sample.blob 1)), (Sample.blob 10), Sample.opaque_rgb.
      repeat split.
Defined.

(** ** Container changes in [compress_images_aggressive.py] *)

(** C1, evaluated on a collection that holds one opaque PNG of 10 bytes
    whose JPEG candidate has 4 bytes: the session deletes [a.png], counts
    one conversion, and leaves the candidate under its temporary name;
    no [a.jpg] exists. *)
Theorem converted_candidate_is_not_renamed :
  exists st,
    Aggressive.main (Sample.env Sample.opaque_rgb (Saved (Sample.blob 4)))
                    (initial Scenario.one_png ∅) ["a.png"]
    = Continue st
    /\ converted_to_jpg st = 1
    /\ processed st = 1
    /\ fs st !! "a.png" = None
    /\ fs st !! "a.jpg" = None
    /\ fs st !! ".temp_a.jpg" = Some (Sample.blob 4)
    /\ backup st !! "a.png" = Some (Sample.blob 10).
Proof.
  eexists. split; [reflexivity|]. vm_compute. repeat split.
Qed.

Lemma finished_run (r : outcome) :
  (if r is Continue _ then true else false) = true ->
  r = Continue (state_of r).
Proof. destruct r; [reflexivity|discriminate]. Qed.

(** C2, evaluated on a collection that holds an opaque PNG (10 bytes) and
    a JPEG (3 bytes), every candidate having 4 bytes: the JPEG's candidate
    is discarded and removed, the PNG's candidate is committed with a
    change of container and is still there, under a [.temp_] name, when
    the run has finished without any failure. *)
Theorem aggressive_run_leaves_temporary_file :
  exists st,
    Aggressive.main (Sample.env Sample.opaque_rgb (Saved (Sample.blob 4)))
                    (initial Scenario.png_and_jpg ∅) ["a.png"; "b.jpg"]
    = Continue st
    /\ processed st = 2 /\ failed st = 0
    /\ fs st !! ".temp_b.jpg" = None
    /\ fs st !! "b.jpg" = Some (Sample.blob 3)
    /\ Pathlib.startswith ".temp_a.jpg" ".temp_" = true
    /\ fs st !! ".temp_a.jpg" = Some (Sample.blob 4)
    /\ dom (fs st) = {[ ".temp_a.jpg"; "b.jpg" ]}.
Proof.
  exists (state_of
            (Aggressive.main
               (Sample.env Sample.opaque_rgb (Saved (Sample.blob 4)))
               (initial Scenario.png_and_jpg ∅) ["a.png"; "b.jpg"])).
  split; [apply finished_run; vm_compute; reflexivity|].
  repeat (split; [vm_compute; reflexivity|]).
  vm_compute. reflexivity.
Qed.

(** * Further properties of the scripts *)

(** ** [compress_images.py]: every way a pass of the loop can end *)

Lemma st_size_inv (m : gmap string bytes) (p : string) (n : Z) :
  FS.st_size m p = Some n ->
  exists data, m !! p = Some data /\ n = Z.of_nat (length data).
Proof.
  unfold FS.st_size. destruct (m !! p) as [data|]; [|discriminate].
  simpl. intros H. injection H as <-. eauto.
Qed.

Lemma conservative_compress_some C cards name q ms cards' o c :
  Conservative.compress_image C cards name (temp_name name) q ms
  = (cards', Some (o, c)) ->
  exists orig cand,
    cards !! name = Some orig
    /\ cards' = <[temp_name name := cand]> cards
    /\ o = Z.of_nat (length orig) /\ c = Z.of_nat (length cand)
    /\ o <> 0.
Proof.
  pose proof (temp_name_neq name) as Hne.
  unfold Conservative.compress_image.
  destruct (cards !! name) as [orig|] eqn:Hin; [|discriminate].
  destruct (cd_open C orig) as [img|]; [|discriminate].
  intros H. apply save_and_measure_sizes in H
    as (Ho & Hso & Hsc & cand & _ & ->).
  apply st_size_inv in Hso as (d1 & H1 & ->).
  apply st_size_inv in Hsc as (d2 & H2 & ->).
  rewrite lookup_insert_ne in H1 by congruence.
  rewrite lookup_insert_eq in H2. injection H2 as <-.
  rewrite Hin in H1. injection H1 as <-.
  exists orig, cand. auto.
Qed.

Lemma conservative_session_classify E st name :
  (is_image name = false /\ Conservative.session E st name = Continue st)
  \/ (is_image name = true /\ ensure_backup E st name = None
      /\ Conservative.session E st name = Abort st)
  \/ (exists st1 st',
        is_image name = true
        /\ ensure_backup E st name = Some st1
        /\ Conservative.session E st name = Continue st'
        /\ backup st' = backup st1
        /\ fs st' !! temp_name name = None
        /\ (forall p, p <> name -> p <> temp_name name ->
                      fs st' !! p = fs st !! p)
        /\ conservative_ending st st' name).
Proof.
  pose proof (temp_name_neq name) as Hne.
  destruct (is_image name) eqn:Him.
  2:{ left. split; [reflexivity|]. unfold Conservative.session.
      now rewrite Him. }
  right. destruct (ensure_backup E st name) as [st1|] eqn:Hb.
  2:{ left. repeat split. unfold Conservative.session. now rewrite Him, Hb. }
  right. exists st1.
  destruct (ensure_backup_fs _ _ _ _ Hb) as (Hfs & Hto & Htc & Hpr & Hf & _).
  rewrite (conservative_session_unfold _ _ _ _ Him Hb).
  destruct (Conservative.compress_image _ _ _ _ _ _) as [cards r] eqn:Hc.
  simpl.
  assert (Hfailure :
    forall r', Conservative.decide (set_fs st1 cards) name (temp_name name) r'
               = Continue (incr_failed
                             (set_fs (set_fs st1 cards)
                                (FS.unlink_if_exists cards (temp_name name)))) ->
    (forall p, p <> temp_name name -> cards !! p = fs st !! p) ->
    exists st',
      true = true /\ Some st1 = Some st1
      /\ Conservative.decide (set_fs st1 cards) name (temp_name name) r'
         = Continue st'
      /\ backup st' = backup st1
      /\ fs st' !! temp_name name = None
      /\ (forall p, p <> name -> p <> temp_name name ->
                    fs st' !! p = fs st !! p)
      /\ conservative_ending st st' name).
  { intros r' Hd Hframe. eexists. split; [reflexivity|].
    split; [reflexivity|]. split; [exact Hd|]. simpl.
    split; [reflexivity|]. split; [apply unlink_if_exists_gone|].
    split.
    - intros p _ Hp. rewrite unlink_if_exists_other by congruence.
      now apply Hframe.
    - apply ended_failed; simpl; try congruence.
      rewrite unlink_if_exists_other by congruence. apply Hframe. congruence. }
  destruct r as [[o c]|].
  - apply conservative_compress_some in Hc
      as (orig & cand & Hin & -> & -> & -> & Hoz).
    assert (Hframe : forall p, p <> temp_name name ->
               <[temp_name name := cand]> (fs st) !! p = fs st !! p)
      by (intros p Hp; apply lookup_insert_ne; congruence).
    destruct (truthy (Z.of_nat (length cand))) eqn:Htc'.
    + unfold Conservative.decide. rewrite (truthy_nonzero _ Hoz), Htc'. simpl.
      destruct (Z.of_nat (length cand) <? Z.of_nat (length orig)) eqn:Hlt.
      * unfold FS.replace. rewrite lookup_insert_eq.
        eexists. split; [reflexivity|]. split; [reflexivity|].
        split; [reflexivity|]. simpl. split; [reflexivity|].
        split; [rewrite lookup_insert_ne by congruence;
                apply lookup_delete_eq|].
        split.
        -- intros p Hp1 Hp2. rewrite lookup_insert_ne by congruence.
           rewrite lookup_delete_ne by congruence. now apply Hframe.
        -- apply (ended_committed _ _ _ orig cand); simpl; try congruence.
           ++ apply lookup_insert_eq.
           ++ apply Z.ltb_lt in Hlt. lia.
      * unfold FS.unlink. rewrite lookup_insert_eq.
        eexists. split; [reflexivity|]. split; [reflexivity|].
        split; [reflexivity|]. simpl. split; [reflexivity|].
        split; [apply lookup_delete_eq|].
        split.
        -- intros p Hp1 Hp2. rewrite lookup_delete_ne by congruence.
           now apply Hframe.
        -- apply ended_discarded; simpl; try congruence.
           ++ rewrite lookup_delete_ne by congruence. apply Hframe. congruence.
           ++ rewrite Hin. eauto.
    + apply Hfailure; [|exact Hframe].
      unfold Conservative.decide. rewrite Htc'.
      now rewrite andb_false_r.
  - apply Hfailure; [reflexivity|].
    intros p Hp. apply (f_equal fst) in Hc. simpl in Hc. subst cards.
    now apply conservative_compress_other.
Qed.

Lemma conservative_session_backup_other E st name p :
  p <> name ->
  backup (state_of (Conservative.session E st name)) !! p = backup st !! p.
Proof.
  intros Hp.
  destruct (conservative_session_classify E st name)
    as [[_ ->]|[(_ & _ & ->)|(st1 & st' & _ & Hb & -> & Hbk & _)]].
  - reflexivity.
  - reflexivity.
  - simpl. rewrite Hbk.
    apply ensure_backup_inv in Hb as [_ [[_ ->]|(_ & d & _ & _ & ->)]];
      [reflexivity|].
    apply lookup_insert_ne. congruence.
Qed.

Lemma conservative_session_fs_other E st name p :
  p <> name -> p <> temp_name name ->
  fs (state_of (Conservative.session E st name)) !! p = fs st !! p.
Proof.
  intros Hp1 Hp2.
  destruct (conservative_session_classify E st name)
    as [[_ ->]|[(_ & _ & ->)|(st1 & st' & _ & _ & -> & _ & _ & Hfr & _)]].
  - reflexivity.
  - reflexivity.
  - simpl. now apply Hfr.
Qed.

(** X1: a pass of the loop of [compress_images.py] over [name], however
    it ends, changes no file of [cards/] other than [name] and
    [.temp_name], and no backup other than that of [name]. *)
Theorem conservative_pass_touches_only_its_asset E st name p :
  p <> name -> p <> temp_name name ->
  fs (state_of (Conservative.session E st name)) !! p = fs st !! p
  /\ backup (state_of (Conservative.session E st name)) !! p
     = backup st !! p.
Proof.
  intros Hp1 Hp2. split.
  - now apply conservative_session_fs_other.
  - now apply conservative_session_backup_other.
Qed.

Lemma conservative_pass_touches_only_its_asset_witness :
  fs (state_of (Conservative.session
                  (Sample.env Sample.opaque_rgb (Saved (Sample.blob 4)))
                  (initial Scenario.two_png ∅) "a.png")) !! "b.png"
  = Some (Sample.blob 8).
Proof.
  destruct (conservative_pass_touches_only_its_asset
              (Sample.env Sample.opaque_rgb (Saved (Sample.blob 4)))
              (initial Scenario.two_png ∅) "a.png" "b.png") as [H _];
    [discriminate ..|].
  rewrite H. reflexivity.
Defined.

(** X2: whatever the codec does, after the pass over an asset the asset
    is still live under its name and is never larger than before; if its
    bytes changed at all, it is strictly smaller. *)
Theorem conservative_asset_never_grows E st name orig :
  fs st !! name = Some orig ->
  exists data,
    fs (state_of (Conservative.session E st name)) !! name = Some data
    /\ (length data <= length orig)%nat
    /\ (data <> orig -> (length data < length orig)%nat).
Proof.
  intros Hin.
  destruct (conservative_session_classify E st name)
    as [[_ ->]|[(_ & _ & ->)|(st1 & st' & _ & _ & -> & _ & _ & _ & Hend)]];
    simpl.
  - exists orig. split; [exact Hin|]. split; [lia|congruence].
  - exists orig. split; [exact Hin|]. split; [lia|congruence].
  - destruct Hend as [_ _ _ _ Hsame|_ _ _ _ Hsame _
                      |orig' cand _ _ _ _ Hbefore Hafter Hlt].
    + exists orig. rewrite Hsame. split; [exact Hin|]. split; [lia|congruence].
    + exists orig. rewrite Hsame. split; [exact Hin|]. split; [lia|congruence].
    + rewrite Hin in Hbefore. injection Hbefore as <-.
      exists cand. split; [exact Hafter|]. split; lia.
Qed.

Lemma conservative_asset_never_grows_witness :
  exists data,
    fs (state_of (Conservative.session
                    (Sample.env Sample.opaque_rgb (Saved (Sample.blob 4)))
                    (initial Scenario.one_png ∅) "a.png")) !! "a.png"
    = Some data
    /\ (length data <= 10)%nat.
Proof.
  destruct (conservative_asset_never_grows
              (Sample.env Sample.opaque_rgb (Saved (Sample.blob 4)))
              (initial Scenario.one_png ∅) "a.png" (Sample.blob 10))
    as (data & H & Hle & _); [reflexivity|].
  exists data. split; [exact H|exact Hle].
Defined.



(** X4: a run of [compress_images.py] that reaches the end of the
    listing has counted every image file of the listing exactly once,
    under [processed] or under [failed]; the other entries are not
    counted. *)
Theorem conservative_run_counts_every_image_once E st listing st' :
  Conservative.main E st listing = Continue st' ->
  processed st' + failed st'
  = processed st + failed st
    + Z.of_nat (length (List.filter is_image listing)).
Proof.
  unfold Conservative.main. revert st.
  induction listing as [|n rest IH]; intros st Hrun.
  - injection Hrun as <-. simpl. lia.
  - simpl in Hrun.
    destruct (conservative_session_classify E st n)
      as [[Him Hs]|[(_ & _ & Hs)|(st1 & st2 & Him & _ & Hs & _ & _ & _ & Hend)]];
      rewrite Hs in Hrun; [|discriminate|].
    + simpl. rewrite Him. now apply IH.
    + simpl. rewrite Him. rewrite (IH _ Hrun). simpl length.
      destruct Hend; lia.
Qed.

Lemma conservative_run_counts_every_image_once_witness :
  processed
    (state_of
       (Conservative.main (Sample.env Sample.opaque_rgb (Saved (Sample.blob 9)))
                          (initial Scenario.two_png ∅)
                          ["a.png"; "backup_original"; "b.png"]))
  + failed
      (state_of
         (Conservative.main
            (Sample.env Sample.opaque_rgb (Saved (Sample.blob 9)))
            (initial Scenario.two_png ∅)
            ["a.png"; "backup_original"; "b.png"]))
  = 2.
Proof.
  rewrite (conservative_run_counts_every_image_once
             (Sample.env Sample.opaque_rgb (Saved (Sample.blob 9)))
             (initial Scenario.two_png ∅)
             ["a.png"; "backup_original"; "b.png"]).
  - reflexivity.
  - apply finished_run. vm_compute. reflexivity.
Defined.

(** X5: over any run of [compress_images.py], finished or not, the two
    byte totals only grow, [total_compressed] never by more than
    [total_original], and by strictly less as soon as anything was
    committed: whenever the summary has a total to print, the total after
    is strictly below the total before. *)
Theorem conservative_totals_shrink E st listing :
  0 <= total_compressed (state_of (Conservative.main E st listing))
       - total_compressed st
  /\ total_compressed (state_of (Conservative.main E st listing))
     - total_compressed st
     <= total_original (state_of (Conservative.main E st listing))
        - total_original st
  /\ (total_original st
      < total_original (state_of (Conservative.main E st listing)) ->
      total_compressed (state_of (Conservative.main E st listing))
      - total_compressed st
      < total_original (state_of (Conservative.main E st listing))
        - total_original st).
Proof.
  unfold Conservative.main.
  apply (for_each_keeps (Conservative.session E)
           (fun s => 0 <= total_compressed s - total_compressed st
                     /\ total_compressed s - total_compressed st
                        <= total_original s - total_original st
                     /\ (total_original st < total_original s ->
                         total_compressed s - total_compressed st
                         < total_original s - total_original st)));
    [|lia].
  intros s name HP.
  destruct (conservative_session_classify E s name)
    as [[_ ->]|[(_ & _ & ->)|(st1 & st' & _ & _ & -> & _ & _ & _ & Hend)]];
    simpl; try exact HP.
  destruct Hend as [_ _ Ho Hc _|_ _ Ho Hc _ _|orig cand _ _ Ho Hc _ _ Hlt];
    rewrite Ho, Hc; lia.
Qed.





Lemma conservative_session_recoverable E st name p d :
  Pathlib.startswith p ".temp_" = false ->
  (fs st !! p = Some d /\ backup st !! p = None) \/ backup st !! p = Some d ->
  (fs (state_of (Conservative.session E st name)) !! p = Some d
   /\ backup (state_of (Conservative.session E st name)) !! p = None)
  \/ backup (state_of (Conservative.session E st name)) !! p = Some d.
Proof.
  intros Hp [[Hfs Hbk]|Hbk].
  2:{ right. now apply conservative_session_keeps. }
  destruct (decide (p = name)) as [->|Hne].
  - destruct (conservative_session_classify E st name)
      as [[_ ->]|[(_ & _ & ->)|(st1 & st' & _ & Hb & -> & Hbk' & _)]];
      simpl; auto.
    right. rewrite Hbk'.
    apply ensure_backup_inv in Hb
      as [_ [[Hs _]|(_ & data & Hin & _ & ->)]].
    + rewrite Hbk in Hs. now destruct Hs.
    + rewrite lookup_insert_eq. congruence.
  - left. split.
    + rewrite conservative_session_fs_other; auto.
      intros ->. now rewrite temp_name_startswith in Hp.
    + rewrite conservative_session_backup_other; auto.
Qed.

(** X7: no run of [compress_images.py] loses an original.  A file that
    is in [cards/] when the run starts, without the [.temp_] prefix and
    without a backup, is afterwards either still there byte for byte
    (and still without backup), or in the backup directory with exactly
    the bytes it had before the run; this holds for finished and for
    interrupted runs alike. *)
Theorem conservative_run_keeps_originals_recoverable E st listing p d :
  Pathlib.startswith p ".temp_" = false ->
  fs st !! p = Some d ->
  backup st !! p = None ->
  (fs (state_of (Conservative.main E st listing)) !! p = Some d
   /\ backup (state_of (Conservative.main E st listing)) !! p = None)
  \/ backup (state_of (Conservative.main E st listing)) !! p = Some d.
Proof.
  intros Hp Hfs Hbk. unfold Conservative.main.
  apply (for_each_keeps (Conservative.session E)
           (fun s => (fs s !! p = Some d /\ backup s !! p = None)
                     \/ backup s !! p = Some d)); [|auto].
  intros s name HP. now apply conservative_session_recoverable.
Qed.

Lemma conservative_run_keeps_originals_recoverable_witness :
  backup (state_of
            (Conservative.main
               (Sample.env Sample.opaque_rgb (Saved (Sample.blob 4)))
               (initial Scenario.two_png ∅) ["a.png"; "b.png"])) !! "a.png"
  = Some (Sample.blob 10).
Proof.
  destruct (conservative_run_keeps_originals_recoverable
              (Sample.env Sample.opaque_rgb (Saved (Sample.blob 4)))
              (initial Scenario.two_png ∅) ["a.png"; "b.png"]
              "a.png" (Sample.blob 10)) as [[Hlive _]|Hbk];
    [reflexivity ..| |exact Hbk].
  exfalso. revert Hlive. vm_compute. discriminate.
Defined.

(** ** [compress_webp_aggressive.py]: every way a pass can end *)

Lemma webp_compress_other C cards inp out q ms p :
  p <> out ->
  fst (WebpAggressive.compress_webp_aggressive C cards inp out q ms) !! p
  = cards !! p.
Proof.
  intros Hne. unfold WebpAggressive.compress_webp_aggressive.
  destruct (cards !! inp) as [data|]; [|reflexivity].
  destruct (cd_open C data) as [img|]; [|reflexivity].
  match goal with
  | |- context [save_and_measure ?C ?m ?i ?pa ?a ?b] =>
      pose proof (save_and_measure_other C m i pa a b p Hne) as H;
      destruct (save_and_measure C m i pa a b) as [cards' [[o c]|]]
  end; exact H.
Qed.

Lemma webp_compress_success C cards name q ms cards' o c :
  WebpAggressive.compress_webp_aggressive C cards name (temp_name name) q ms
  = (cards', (true, o, c)) ->
  exists orig cand,
    cards !! name = Some orig
    /\ cards' = <[temp_name name := cand]> cards
    /\ o = Z.of_nat (length orig) /\ c = Z.of_nat (length cand)
    /\ o <> 0.
Proof.
  pose proof (temp_name_neq name) as Hne.
  unfold WebpAggressive.compress_webp_aggressive.
  destruct (cards !! name) as [orig|] eqn:Hin; [|discriminate].
  destruct (cd_open C orig) as [img|]; [|discriminate].
  destruct (save_and_measure _ _ _ _ _ _) as [cards'' [[o' c']|]] eqn:Hsm;
    [|discriminate].
  intros H. injection H as <- <- <-.
  apply save_and_measure_sizes in Hsm as (Ho & Hso & Hsc & cand & _ & ->).
  apply st_size_inv in Hso as (d1 & H1 & ->).
  apply st_size_inv in Hsc as (d2 & H2 & ->).
  rewrite lookup_insert_ne in H1 by congruence.
  rewrite lookup_insert_eq in H2. injection H2 as <-.
  rewrite Hin in H1. injection H1 as <-.
  exists orig, cand. auto.
Qed.

Lemma webp_session_classify E st name :
  (ensure_backup E st name = None
   /\ WebpAggressive.session E st name = Abort st)
  \/ (exists st1 st',
        ensure_backup E st name = Some st1
        /\ WebpAggressive.session E st name = Continue st'
        /\ backup st' = backup st1
        /\ fs st' !! temp_name name = None
        /\ (forall p, p <> name -> p <> temp_name name ->
                      fs st' !! p = fs st !! p)
        /\ ((failed st' = failed st + 1 /\ converted st' = converted st
             /\ fs st' !! name = fs st !! name)
            \/ (converted st' = converted st + 1 /\ failed st' = failed st
                /\ fs st' !! name = fs st !! name)
            \/ (exists orig cand,
                  converted st' = converted st + 1 /\ failed st' = failed st
                  /\ fs st !! name = Some orig /\ fs st' !! name = Some cand
                  /\ (length cand < length orig)%nat))).
Proof.
  pose proof (temp_name_neq name) as Hne.
  destruct (ensure_backup E st name) as [st1|] eqn:Hb.
  2:{ left. split; [reflexivity|]. unfold WebpAggressive.session.
      now rewrite Hb. }
  right. exists st1.
  destruct (ensure_backup_fs _ _ _ _ Hb) as (Hfs & _ & _ & _ & Hf & Hcv & _).
  unfold WebpAggressive.session. rewrite Hb, Hfs.
  destruct (WebpAggressive.compress_webp_aggressive _ _ _ _ _ _)
    as [cards [[success o] c]] eqn:Hc.
  destruct success.
  - apply webp_compress_success in Hc
      as (orig & cand & Hin & -> & -> & -> & Hoz).
    unfold WebpAggressive.decide. simpl.
    destruct (Z.of_nat (length cand) <? Z.of_nat (length orig)) eqn:Hlt.
    + unfold FS.replace. rewrite lookup_insert_eq.
      eexists. split; [reflexivity|]. split; [reflexivity|]. simpl.
      split; [reflexivity|].
      split; [rewrite lookup_insert_ne by congruence; apply lookup_delete_eq|].
      split.
      * intros p Hp1 Hp2. rewrite lookup_insert_ne by congruence.
        rewrite lookup_delete_ne by congruence.
        apply lookup_insert_ne. congruence.
      * right. right. exists orig, cand. repeat split; try congruence.
        -- apply lookup_insert_eq.
        -- apply Z.ltb_lt in Hlt. lia.
    + unfold FS.unlink. rewrite lookup_insert_eq.
      eexists. split; [reflexivity|]. split; [reflexivity|]. simpl.
      split; [reflexivity|]. split; [apply lookup_delete_eq|].
      split.
      * intros p Hp1 Hp2. rewrite lookup_delete_ne by congruence.
        apply lookup_insert_ne. congruence.
      * right. left. repeat split; try congruence.
        rewrite lookup_delete_ne by congruence.
        apply lookup_insert_ne. congruence.
  - assert (Hframe : forall p, p <> temp_name name -> cards !! p = fs st !! p).
    { intros p Hp. apply (f_equal fst) in Hc. simpl in Hc. subst cards.
      now apply webp_compress_other. }
    unfold WebpAggressive.decide. simpl.
    eexists. split; [reflexivity|]. split; [reflexivity|]. simpl.
    split; [reflexivity|]. split; [apply unlink_if_exists_gone|].
    split.
    + intros p _ Hp2. rewrite unlink_if_exists_other by congruence.
      now apply Hframe.
    + left. repeat split; try congruence.
      rewrite unlink_if_exists_other by congruence. apply Hframe. congruence.
Qed.

(** X8: in [compress_webp_aggressive.py] too, whatever the codec does,
    the pass over a WebP file leaves it live under its name, never
    larger than before, and strictly smaller if its bytes changed. *)
Theorem webp_asset_never_grows E st name orig :
  fs st !! name = Some orig ->
  exists data,
    fs (state_of (WebpAggressive.session E st name)) !! name = Some data
    /\ (length data <= length orig)%nat
    /\ (data <> orig -> (length data < length orig)%nat).
Proof.
  intros Hin.
  destruct (webp_session_classify E st name)
    as [[_ ->]|(st1 & st' & _ & -> & _ & _ & _ & Hend)]; simpl.
  - exists orig. split; [exact Hin|]. split; [lia|congruence].
  - destruct Hend as [(_ & _ & Hsame)|[(_ & _ & Hsame)
                     |(orig' & cand & _ & _ & Hbefore & Hafter & Hlt)]].
    + exists orig. rewrite Hsame. split; [exact Hin|]. split; [lia|congruence].
    + exists orig. rewrite Hsame. split; [exact Hin|]. split; [lia|congruence].
    + rewrite Hin in Hbefore. injection Hbefore as <-.
      exists cand. split; [exact Hafter|]. split; lia.
Qed.

Lemma webp_asset_never_grows_witness :
  exists data,
    fs (state_of (WebpAggressive.session
                    (Sample.env Sample.opaque_rgb (Saved (Sample.blob 4)))
                    (initial {[ "a.webp" := Sample.blob 10 ]} ∅) "a.webp"))
      !! "a.webp" = Some data
    /\ (length data <= 10)%nat.
Proof.
  destruct (webp_asset_never_grows
              (Sample.env Sample.opaque_rgb (Saved (Sample.blob 4)))
              (initial {[ "a.webp" := Sample.blob 10 ]} ∅) "a.webp"
              (Sample.blob 10))
    as (data & H & Hle & _); [reflexivity|].
  exists data. split; [exact H|exact Hle].
Defined.

(** ** Names and their endings *)

Lemma substring_0_0 (s : string) : substring 0 0 s = EmptyString.
Proof. now destruct s. Qed.

Lemma substring_split (n : nat) (s : string) :
  (n <= String.length s)%nat ->
  s = substring 0 n s +:+ substring n (String.length s - n) s.
Proof.
  revert n. induction s as [|c s IH]; intros n Hn.
  - simpl in Hn. assert (n = 0%nat) as -> by lia. reflexivity.
  - destruct n as [|n].
    + rewrite substring_0_0, Nat.sub_0_r, substring_full. reflexivity.
    + simpl in Hn. simpl substring.
      change (String c (substring 0 n s) +:+ ?t)
        with (String c (substring 0 n s +:+ t)).
      f_equal. apply IH. lia.
Qed.

Lemma endswith_inv (s p : string) :
  Pathlib.endswith s p = true -> exists a, s = a +:+ p.
Proof.
  unfold Pathlib.endswith. intros H.
  apply andb_prop in H as [Hlen Heq].
  apply Nat.leb_le in Hlen. apply String.eqb_eq in Heq.
  exists (substring 0 (String.length s - String.length p) s).
  assert (Hn : (String.length s - String.length p <= String.length s)%nat)
    by lia.
  pose proof (substring_split _ s Hn) as Hsplit.
  replace (String.length s - (String.length s - String.length p))%nat
    with (String.length p) in Hsplit by lia.
  rewrite Heq in Hsplit. exact Hsplit.
Qed.

Lemma endswith_app (a p : string) : Pathlib.endswith (a +:+ p) p = true.
Proof.
  unfold Pathlib.endswith. rewrite length_append.
  apply andb_true_intro. split; [apply Nat.leb_le; lia|].
  replace (String.length a + String.length p - String.length p)%nat
    with (String.length a) by lia.
  rewrite substring_app_tail. apply String.eqb_refl.
Qed.

Lemma from_end_of_app (a t : string) (k : nat) :
  (0 < k <= String.length t)%nat ->
  get (String.length (a +:+ t) - k) (a +:+ t) = get (String.length t - k) t.
Proof.
  intros Hk. rewrite length_append.
  replace (String.length a + String.length t - k)%nat
    with (String.length t - k + String.length a)%nat by lia.
  symmetry. apply append_correct2.
Qed.

Lemma jpg_is_not_webp (s t : string) :
  Pathlib.endswith s ".jpg" = true -> Pathlib.endswith t ".webp" = true ->
  s <> t.
Proof.
  intros Hs Ht Heq. subst t.
  apply endswith_inv in Hs as [a Ha]. apply endswith_inv in Ht as [b Hb].
  rewrite Ha in Hb.
  apply (f_equal (fun x => get (String.length x - 1) x)) in Hb.
  cbv beta in Hb. rewrite !from_end_of_app in Hb by (simpl; lia).
  discriminate.
Qed.

Lemma png_is_not_jpg (s t : string) :
  Pathlib.endswith s ".png" = true -> Pathlib.endswith t ".jpg" = true ->
  s <> t.
Proof.
  intros Hs Ht Heq. subst t.
  apply endswith_inv in Hs as [a Ha]. apply endswith_inv in Ht as [b Hb].
  rewrite Ha in Hb.
  apply (f_equal (fun x => get (String.length x - 2) x)) in Hb.
  cbv beta in Hb. rewrite !from_end_of_app in Hb by (simpl; lia).
  discriminate.
Qed.

Lemma webp_file_ends_in_webp (name : string) :
  Pathlib.endswith (ConvertToWebp.webp_file name) ".webp" = true.
Proof. unfold ConvertToWebp.webp_file, Pathlib.with_suffix. apply endswith_app. Qed.

(** ** [convert_to_webp.py] *)

Lemma convert_other C cards inp out q ms p :
  p <> out ->
  fst (ConvertToWebp.convert_jpg_to_webp C cards inp out q ms) !! p
  = cards !! p.
Proof.
  intros Hne. unfold ConvertToWebp.convert_jpg_to_webp.
  destruct (cards !! inp) as [data|]; [|reflexivity].
  destruct (cd_open C data) as [img|]; [|reflexivity].
  match goal with
  | |- context [save_and_measure ?C ?m ?i ?pa ?a ?b] =>
      pose proof (save_and_measure_other C m i pa a b p Hne) as H;
      destruct (save_and_measure C m i pa a b) as [cards' [[o c]|]]
  end; exact H.
Qed.

Lemma convert_success C cards name out q ms cards' o c :
  name <> out ->
  ConvertToWebp.convert_jpg_to_webp C cards name out q ms
  = (cards', (true, o, c)) ->
  exists orig cand,
    cards !! name = Some orig
    /\ cards' = <[out := cand]> cards
    /\ o = Z.of_nat (length orig) /\ c = Z.of_nat (length cand)
    /\ o <> 0.
Proof.
  intros Hne. unfold ConvertToWebp.convert_jpg_to_webp.
  destruct (cards !! name) as [orig|] eqn:Hin; [|discriminate].
  destruct (cd_open C orig) as [img|]; [|discriminate].
  destruct (save_and_measure _ _ _ _ _ _) as [cards'' [[o' c']|]] eqn:Hsm;
    [|discriminate].
  intros H. injection H as <- <- <-.
  apply save_and_measure_sizes in Hsm as (Ho & Hso & Hsc & cand & _ & ->).
  apply st_size_inv in Hso as (d1 & H1 & ->).
  apply st_size_inv in Hsc as (d2 & H2 & ->).
  rewrite lookup_insert_ne in H1 by congruence.
  rewrite lookup_insert_eq in H2. injection H2 as <-.
  rewrite Hin in H1. injection H1 as <-.
  exists orig, cand. auto.
Qed.

Lemma convert_encodes_result C cards name orig cand :
  name <> ConvertToWebp.webp_file name ->
  convert_encodes C cards name orig cand ->
  ConvertToWebp.convert_jpg_to_webp
    C cards name (ConvertToWebp.webp_file name) 85 (1200, 2000)
  = (<[ConvertToWebp.webp_file name := cand]> cards,
     if Z.of_nat (length orig) =? 0 then (false, 0, 0)
     else (true, Z.of_nat (length orig), Z.of_nat (length cand))).
Proof.
  intros Hne (Hin & img & Hopen & Hsave).
  unfold ConvertToWebp.convert_jpg_to_webp. rewrite Hin, Hopen.
  unfold rgb_prepared in Hsave.
  rewrite (save_and_measure_saved _ _ _ _ _ _ orig cand Hsave); auto.
  now destruct (Z.of_nat (length orig) =? 0).
Qed.

(** What a pass of [convert_to_webp.py] can do to the files and the
    backups, however it ends *)
Lemma convert_session_safety E st name :
  name <> ConvertToWebp.webp_file name ->
  (forall p, p <> name -> p <> ConvertToWebp.webp_file name ->
             fs (state_of (ConvertToWebp.session E st name)) !! p
             = fs st !! p)
  /\ (forall p, p <> name ->
                backup (state_of (ConvertToWebp.session E st name)) !! p
                = backup st !! p)
  /\ ((fs (state_of (ConvertToWebp.session E st name)) !! name
       = fs st !! name
       /\ backup (state_of (ConvertToWebp.session E st name)) = backup st)
      \/ (fs (state_of (ConvertToWebp.session E st name)) !! name = None
          /\ exists d,
               fs st !! name = Some d
               /\ ((backup st !! name = None
                    /\ backup (state_of (ConvertToWebp.session E st name))
                         !! name = Some d)
                   \/ (is_Some (backup st !! name)
                       /\ backup (state_of (ConvertToWebp.session E st name))
                          = backup st)))).
Proof.
  intros Hne. unfold ConvertToWebp.session.
  destruct (ConvertToWebp.convert_jpg_to_webp _ _ _ _ _ _)
    as [cards [[success o] c]] eqn:Hc.
  assert (Hframe : forall p, p <> ConvertToWebp.webp_file name ->
                             cards !! p = fs st !! p).
  { intros p Hp. apply (f_equal fst) in Hc. simpl in Hc. subst cards.
    now apply convert_other. }
  destruct success; simpl.
  - apply convert_success in Hc as (orig & cand & Hin & -> & -> & -> & Hoz);
      [|exact Hne].
    destruct (Z.of_nat (length cand) <? Z.of_nat (length orig)).
    + destruct (ensure_backup E _ name) as [st1|] eqn:Hb.
      * pose proof (ensure_backup_fs _ _ _ _ Hb) as (Hfs & _).
        simpl in Hfs. unfold FS.unlink. rewrite Hfs.
        rewrite lookup_insert_ne by congruence. rewrite Hin. simpl.
        split; [|split].
        -- intros p Hp1 Hp2. rewrite lookup_delete_ne by congruence.
           now apply Hframe.
        -- intros p Hp1.
           apply ensure_backup_inv in Hb
             as [_ [[_ ->]|(_ & d & _ & _ & ->)]]; [reflexivity|].
           simpl. apply lookup_insert_ne. congruence.
        -- right. split; [apply lookup_delete_eq|].
           exists orig. split; [reflexivity|].
           apply ensure_backup_inv in Hb
             as [_ [[Hs ->]|(Hnone & d & Hd & _ & ->)]]; simpl in *.
           ++ right. split; [exact Hs|reflexivity].
           ++ left. split; [exact Hnone|].
              rewrite lookup_insert_ne in Hd by congruence.
              rewrite lookup_insert_eq. congruence.
      * simpl. split; [|split].
        -- intros p _ Hp2. now apply Hframe.
        -- reflexivity.
        -- left. split; [|reflexivity].
           apply lookup_insert_ne. congruence.
    + unfold FS.unlink. rewrite lookup_insert_eq. simpl.
      split; [|split].
      * intros p _ Hp2. rewrite lookup_delete_ne by congruence.
        now apply Hframe.
      * reflexivity.
      * left. split; [|reflexivity].
        rewrite lookup_delete_ne by congruence.
        apply lookup_insert_ne. congruence.
  - split; [|split].
    + intros p _ Hp2. now apply Hframe.
    + reflexivity.
    + left. split; [|reflexivity]. apply Hframe. congruence.
Qed.

(** X9: what [convert_to_webp.py] does with a JPEG whose WebP candidate
    was encoded (original not empty, backup possible).  A strictly
    smaller candidate stays as [<stem>.webp], the JPEG is deleted, and
    the backup directory holds the JPEG (its very bytes if it had no
    backup yet); otherwise the candidate is deleted and the JPEG is left
    as it was.  Both ways the file is counted under [converted]. *)
Theorem convert_to_webp_outcomes E st name orig cand :
  Pathlib.endswith name ".jpg" = true ->
  convert_encodes (codec E) (fs st) name orig cand ->
  orig <> [] ->
  is_Some (backup st !! name) \/ copy2_ok E name = true ->
  exists st',
    ConvertToWebp.session E st name = Continue st'
    /\ converted st' = converted st + 1
    /\ failed st' = failed st
    /\ if Z.of_nat (length cand) <? Z.of_nat (length orig)
       then fs st' !! name = None
            /\ fs st' !! ConvertToWebp.webp_file name = Some cand
            /\ is_Some (backup st' !! name)
            /\ (backup st !! name = None -> backup st' !! name = Some orig)
            /\ total_original st'
               = total_original st + Z.of_nat (length orig)
            /\ total_compressed st'
               = total_compressed st + Z.of_nat (length cand)
       else fs st' !! name = Some orig
            /\ fs st' !! ConvertToWebp.webp_file name = None
            /\ backup st' = backup st
            /\ total_original st' = total_original st
            /\ total_compressed st' = total_compressed st.
Proof.
  intros Hjpg Henc Ho Hcopy.
  assert (Hne : name <> ConvertToWebp.webp_file name)
    by (apply jpg_is_not_webp; [exact Hjpg|apply webp_file_ends_in_webp]).
  unfold ConvertToWebp.session.
  rewrite (convert_encodes_result _ _ _ _ _ Hne Henc).
  apply size_nonzero in Ho.
  destruct (Z.of_nat (length orig) =? 0) eqn:Hz;
    [apply Z.eqb_eq in Hz; contradiction|].
  destruct Henc as (Hin & _). simpl.
  destruct (Z.of_nat (length cand) <? Z.of_nat (length orig)).
  - unfold ensure_backup. simpl.
    rewrite lookup_insert_ne by congruence. rewrite Hin.
    destruct (FS.exists_ (backup st) name) eqn:He.
    + simpl. unfold FS.unlink. simpl.
      rewrite lookup_insert_ne by congruence. rewrite Hin.
      apply exists_true in He.
      eexists. split; [reflexivity|]. simpl. repeat split; auto.
      * apply lookup_delete_eq.
      * rewrite lookup_delete_ne by congruence. apply lookup_insert_eq.
      * intros Hnone. rewrite Hnone in He. now destruct He.
    + apply exists_false in He.
      destruct Hcopy as [Hs|Hcopy]; [rewrite He in Hs; now destruct Hs|].
      rewrite Hcopy. unfold FS.unlink. simpl.
      rewrite lookup_insert_ne by congruence. rewrite Hin.
      eexists. split; [reflexivity|]. simpl. repeat split; auto.
      * apply lookup_delete_eq.
      * rewrite lookup_delete_ne by congruence. apply lookup_insert_eq.
      * rewrite lookup_insert_eq. eauto.
      * intros _. apply lookup_insert_eq.
  - unfold FS.unlink. simpl. rewrite lookup_insert_eq.
    eexists. split; [reflexivity|]. simpl. repeat split; auto.
    + rewrite lookup_delete_ne by congruence.
      rewrite lookup_insert_ne by congruence. exact Hin.
    + apply lookup_delete_eq.
Qed.

Lemma convert_to_webp_outcomes_witness :
  exists st',
    ConvertToWebp.session
      (Sample.env Sample.opaque_rgb (Saved (Sample.blob 4)))
      (initial Scenario2.one_jpg ∅) "x.jpg"
    = Continue st'
    /\ fs st' !! "x.jpg" = None
    /\ fs st' !! "x.webp" = Some (Sample.blob 4)
    /\ backup st' !! "x.jpg" = Some (Sample.blob 10).
Proof.
  destruct (convert_to_webp_outcomes
              (Sample.env Sample.opaque_rgb (Saved (Sample.blob 4)))
              (initial Scenario2.one_jpg ∅) "x.jpg"
              (Sample.blob 10) (Sample.blob 4))
    as (st' & Hs & _ & _ & Hif).
  - reflexivity.
  - split; [reflexivity|]. exists Sample.opaque_rgb. split; reflexivity.
  - discriminate.
  - right. reflexivity.
  - assert (Hlt : (Z.of_nat (length (Sample.blob 4))
                   <? Z.of_nat (length (Sample.blob 10))) = true)
      by reflexivity.
    rewrite Hlt in Hif. destruct Hif as (H1 & H2 & _ & H3 & _).
    exists st'. repeat split; auto.
Defined.

Lemma convert_session_recoverable E st name p d :
  Pathlib.endswith name ".jpg" = true ->
  Pathlib.endswith p ".jpg" = true ->
  (fs st !! p = Some d /\ backup st !! p = None) \/ backup st !! p = Some d ->
  (fs (state_of (ConvertToWebp.session E st name)) !! p = Some d
   /\ backup (state_of (ConvertToWebp.session E st name)) !! p = None)
  \/ backup (state_of (ConvertToWebp.session E st name)) !! p = Some d.
Proof.
  intros Hname Hp HQ.
  assert (Hne : name <> ConvertToWebp.webp_file name)
    by (apply jpg_is_not_webp; [exact Hname|apply webp_file_ends_in_webp]).
  assert (Hpt : p <> ConvertToWebp.webp_file name)
    by (apply jpg_is_not_webp; [exact Hp|apply webp_file_ends_in_webp]).
  destruct (convert_session_safety E st name Hne) as (Hfr & Hbk & Hown).
  destruct (decide (p = name)) as [->|Hpn].
  - destruct Hown as [[Hsame Hb]|(Hgone & d' & Hd' & [[Hnone Hnew]|[Hs Hb]])].
    + rewrite Hsame, Hb. exact HQ.
    + destruct HQ as [[Hfs _]|Hold]; [|congruence].
      right. congruence.
    + rewrite Hb. destruct HQ as [[_ Hnone]|Hold]; [|now right].
      rewrite Hnone in Hs. now destruct Hs.
  - rewrite (Hfr p Hpn Hpt), (Hbk p Hpn). exact HQ.
Qed.

(** X10: no run of [convert_to_webp.py] loses a JPEG.  A [.jpg] file of
    [cards/] that has no backup when the run starts is afterwards either
    still there byte for byte, or in the backup directory with exactly
    those bytes, whether the run finished or not. *)
Theorem convert_run_keeps_jpgs_recoverable E st listing p d :
  Pathlib.endswith p ".jpg" = true ->
  fs st !! p = Some d ->
  backup st !! p = None ->
  (fs (state_of (ConvertToWebp.main E st listing)) !! p = Some d
   /\ backup (state_of (ConvertToWebp.main E st listing)) !! p = None)
  \/ backup (state_of (ConvertToWebp.main E st listing)) !! p = Some d.
Proof.
  intros Hp Hfs Hbk. unfold ConvertToWebp.main.
  assert (HQ : (fs st !! p = Some d /\ backup st !! p = None)
               \/ backup st !! p = Some d) by auto.
  clear Hfs Hbk. revert st HQ.
  induction listing as [|n rest IH]; intros st HQ; [exact HQ|].
  rewrite filter_cons. destruct (decide (Is_true (Pathlib.endswith n ".jpg")))
    as [Hn|Hn]; [|now apply IH].
  apply Is_true_eq_true in Hn. simpl.
  pose proof (convert_session_recoverable E st n p d Hn Hp HQ) as Hstep.
  destruct (ConvertToWebp.session E st n) as [st'|st']; [|exact Hstep].
  now apply IH.
Qed.

Lemma convert_run_keeps_jpgs_recoverable_witness :
  backup (state_of
            (ConvertToWebp.main
               (Sample.env Sample.opaque_rgb (Saved (Sample.blob 4)))
               (initial Scenario2.one_jpg ∅) ["x.jpg"])) !! "x.jpg"
  = Some (Sample.blob 10).
Proof.
  destruct (convert_run_keeps_jpgs_recoverable
              (Sample.env Sample.opaque_rgb (Saved (Sample.blob 4)))
              (initial Scenario2.one_jpg ∅) ["x.jpg"]
              "x.jpg" (Sample.blob 10)) as [[Hlive _]|Hbk];
    [reflexivity ..| |exact Hbk].
  exfalso. revert Hlive. vm_compute. discriminate.
Defined.

(** ** [compress_images_aggressive.py]: candidate paths and safety *)

Lemma rfind_dot_temp (name : string) :
  Pathlib.rfind_dot (temp_name name)
  = match Pathlib.rfind_dot name with
    | Some i => Some (6 + i)%nat
    | None => Some 0%nat
    end.
Proof.
  unfold temp_name.
  change (".temp_" +:+ name)
    with (String "." (String "t" (String "e" (String "m" (String "p"
            (String "_" name)))))).
  simpl. now destruct (Pathlib.rfind_dot name).
Qed.

Lemma temp_stem_long (name : string) :
  (6 <= String.length (temp_name name)
        - String.length (Pathlib.suffix (temp_name name)))%nat.
Proof.
  assert (Hlen : String.length (temp_name name)
                 = (6 + String.length name)%nat)
    by (unfold temp_name; now rewrite length_append).
  unfold Pathlib.suffix. rewrite rfind_dot_temp.
  destruct (Pathlib.rfind_dot name) as [i|]; [|simpl; lia].
  destruct ((0 <? 6 + i)%nat
            && (6 + i <? String.length (temp_name name) - 1)%nat);
    [|simpl; lia].
  pose proof (length_substring_le (6 + i)
                (String.length (temp_name name) - (6 + i)) (temp_name name)).
  lia.
Qed.

Lemma jpg_candidate_is_temp (name : string) :
  Pathlib.startswith (Pathlib.with_suffix (temp_name name) ".jpg") ".temp_"
  = true.
Proof.
  unfold Pathlib.with_suffix.
  pose proof (temp_stem_long name) as Hk.
  destruct (String.length (temp_name name)
            - String.length (Pathlib.suffix (temp_name name)))%nat
    as [|[|[|[|[|[|k]]]]]]; try lia.
  unfold temp_name, Pathlib.startswith.
  change (".temp_" +:+ name)
    with (String "." (String "t" (String "e" (String "m" (String "p"
            (String "_" name)))))).
  simpl substring.
  change (String "." (String "t" (String "e" (String "m" (String "p"
            (String "_" (substring 0 k name)))))) +:+ ".jpg")
    with (String "." (String "t" (String "e" (String "m" (String "p"
            (String "_" (substring 0 k name +:+ ".jpg"))))))).
  now destruct (substring 0 k name +:+ ".jpg").
Qed.

Lemma not_temp_neq (p q : string) :
  Pathlib.startswith p ".temp_" = false ->
  Pathlib.startswith q ".temp_" = true -> p <> q.
Proof. intros Hp Hq ->. congruence. Qed.

Lemma aggressive_compress_other C cards name jq ms p :
  p <> temp_name name ->
  p <> Pathlib.with_suffix (temp_name name) ".jpg" ->
  fst (Aggressive.compress_image C cards name (temp_name name) jq ms false)
    !! p
  = cards !! p.
Proof.
  intros Hp1 Hp2. unfold Aggressive.compress_image.
  destruct (cards !! name) as [data|]; [|reflexivity].
  destruct (cd_open C data) as [img|]; [|reflexivity].
  destruct (has_transparency img) as [has_alpha|]; [|reflexivity].
  pose proof (aggressive_plan_output C (resize_step C img ms) has_alpha name jq)
    as Hplan.
  destruct (Aggressive.plan _ _ _ _ _ _ _) as [[img' final] params].
  simpl in Hplan.
  assert (Hpf : p <> final) by (destruct Hplan as [->|[-> _]]; assumption).
  pose proof (save_and_measure_other C cards img' params name final p Hpf)
    as H.
  now destruct (save_and_measure _ _ _ _ _ _) as [cards' [[o c]|]].
Qed.

Lemma aggressive_compress_final C cards name jq ms cards' o c final :
  Aggressive.compress_image C cards name (temp_name name) jq ms false
  = (cards', Some (o, c, final)) ->
  final = temp_name name
  \/ final = Pathlib.with_suffix (temp_name name) ".jpg".
Proof.
  unfold Aggressive.compress_image.
  destruct (cards !! name) as [data|]; [|discriminate].
  destruct (cd_open C data) as [img|]; [|discriminate].
  destruct (has_transparency img) as [has_alpha|]; [|discriminate].
  pose proof (aggressive_plan_output C (resize_step C img ms) has_alpha name jq)
    as Hplan.
  destruct (Aggressive.plan _ _ _ _ _ _ _) as [[img' final'] params].
  simpl in Hplan.
  destruct (save_and_measure _ _ _ _ _ _) as [cards'' [[o' c']|]];
    [|discriminate].
  intros H. injection H as <- <- <- <-. tauto.
Qed.

Lemma aggressive_decide_backup st name t r :
  backup (state_of (Aggressive.decide st name t r)) = backup st.
Proof.
  unfold Aggressive.decide, FS.replace, FS.unlink.
  destruct r as [[[o c] final]|]; [|reflexivity].
  destruct (truthy o && truthy c); [|reflexivity].
  destruct (c <? o); [|reflexivity].
  destruct (negb _); [destruct (fs st !! name)|destruct (fs st !! t)];
    reflexivity.
Qed.

Lemma aggressive_decide_other st name t r p :
  p <> name -> p <> t ->
  (forall o c final, r = Some (o, c, final) -> p <> final) ->
  fs (state_of (Aggressive.decide st name t r)) !! p = fs st !! p.
Proof.
  intros Hp1 Hp2 Hp3.
  assert (Hfail : fs (incr_failed (set_fs st (FS.unlink_if_exists (fs st) t)))
                    !! p = fs st !! p)
    by (simpl; now apply unlink_if_exists_other).
  unfold Aggressive.decide, FS.replace, FS.unlink.
  destruct r as [[[o c] final]|]; [|exact Hfail].
  specialize (Hp3 o c final eq_refl).
  destruct (truthy o && truthy c); [|exact Hfail].
  destruct (c <? o).
  - destruct (negb _).
    + destruct (fs st !! name); simpl; [|reflexivity].
      now apply lookup_delete_ne.
    + destruct (fs st !! t); simpl; [|reflexivity].
      rewrite lookup_insert_ne by congruence. now apply lookup_delete_ne.
  - simpl. destruct (negb (String.eqb final t)).
    + rewrite unlink_if_exists_other by congruence.
      now apply unlink_if_exists_other.
    + now apply unlink_if_exists_other.
Qed.

(** What a pass of [compress_images_aggressive.py] can do to the files
    and the backups, however it ends *)
Lemma aggressive_session_safety E st name :
  (forall p, p <> name -> p <> temp_name name ->
             p <> Pathlib.with_suffix (temp_name name) ".jpg" ->
             fs (state_of (Aggressive.session E st name)) !! p = fs st !! p)
  /\ (forall p, p <> name ->
                backup (state_of (Aggressive.session E st name)) !! p
                = backup st !! p)
  /\ (state_of (Aggressive.session E st name) = st
      \/ exists st1,
           ensure_backup E st name = Some st1
           /\ backup (state_of (Aggressive.session E st name)) = backup st1).
Proof.
  unfold Aggressive.session.
  destruct (negb (is_image name)); [simpl; auto|].
  destruct (String.eqb parent_name "backup_original"); [simpl; auto|].
  destruct (Pathlib.startswith name ".temp_"); [simpl; auto|].
  destruct (ensure_backup E st name) as [st1|] eqn:Hb; [|simpl; auto].
  destruct (ensure_backup_fs _ _ _ _ Hb) as (Hfs & _).
  destruct (Aggressive.compress_image _ _ _ _ _ _ _) as [cards r] eqn:Hc.
  rewrite Hfs in Hc.
  rewrite aggressive_decide_backup. simpl.
  split; [|split].
  - intros p Hp1 Hp2 Hp3.
    rewrite aggressive_decide_other; auto.
    + simpl. apply (f_equal fst) in Hc. simpl in Hc. subst cards.
      now apply aggressive_compress_other.
    + intros o c final ->.
      apply aggressive_compress_final in Hc as [->| ->]; assumption.
  - intros p Hp.
    apply ensure_backup_inv in Hb as [_ [[_ ->]|(_ & d & _ & _ & ->)]];
      [reflexivity|].
    apply lookup_insert_ne. congruence.
  - right. exists st1. auto.
Qed.

Lemma aggressive_session_keeps E st name n b :
  backup st !! n = Some b ->
  backup (state_of (Aggressive.session E st name)) !! n = Some b.
Proof.
  intros Hn.
  destruct (aggressive_session_safety E st name)
    as (_ & _ & [->|(st1 & Hb & ->)]); [exact Hn|].
  now apply (ensure_backup_keeps _ _ _ _ _ _ Hb).
Qed.

Lemma aggressive_session_recoverable E st name p d :
  Pathlib.startswith p ".temp_" = false ->
  (fs st !! p = Some d /\ backup st !! p = None) \/ backup st !! p = Some d ->
  (fs (state_of (Aggressive.session E st name)) !! p = Some d
   /\ backup (state_of (Aggressive.session E st name)) !! p = None)
  \/ backup (state_of (Aggressive.session E st name)) !! p = Some d.
Proof.
  intros Hp [[Hfs Hbk]|Hbk].
  2:{ right. now apply aggressive_session_keeps. }
  destruct (aggressive_session_safety E st name) as (Hfr & Hbo & Hown).
  destruct (decide (p = name)) as [->|Hne].
  - destruct Hown as [->|(st1 & Hb & ->)]; [auto|].
    right.
    apply ensure_backup_inv in Hb
      as [_ [[Hs _]|(_ & data & Hin & _ & ->)]].
    + rewrite Hbk in Hs. now destruct Hs.
    + rewrite lookup_insert_eq. congruence.
  - left. split.
    + rewrite Hfr; auto.
      * apply not_temp_neq; [exact Hp|apply temp_name_startswith].
      * apply not_temp_neq; [exact Hp|apply jpg_candidate_is_temp].
    + rewrite Hbo; auto.
Qed.

(** X11: no run of [compress_images_aggressive.py] loses an original,
    the PNG files it deletes included.  A file that is in [cards/] when
    the run starts, without the [.temp_] prefix and without a backup, is
    afterwards either still there byte for byte, or in the backup
    directory with exactly the bytes it had before the run. *)
Theorem aggressive_run_keeps_originals_recoverable E st listing p d :
  Pathlib.startswith p ".temp_" = false ->
  fs st !! p = Some d ->
  backup st !! p = None ->
  (fs (state_of (Aggressive.main E st listing)) !! p = Some d
   /\ backup (state_of (Aggressive.main E st listing)) !! p = None)
  \/ backup (state_of (Aggressive.main E st listing)) !! p = Some d.
Proof.
  intros Hp Hfs Hbk. unfold Aggressive.main.
  apply (for_each_keeps (Aggressive.session E)
           (fun s => (fs s !! p = Some d /\ backup s !! p = None)
                     \/ backup s !! p = Some d)); [|auto].
  intros s name HP. now apply aggressive_session_recoverable.
Qed.

Lemma aggressive_run_keeps_originals_recoverable_witness :
  backup (state_of
            (Aggressive.main
               (Sample.env Sample.opaque_rgb (Saved (Sample.blob 4)))
               (initial Scenario.one_png ∅) ["a.png"])) !! "a.png"
  = Some (Sample.blob 10).
Proof.
  destruct (aggressive_run_keeps_originals_recoverable
              (Sample.env Sample.opaque_rgb (Saved (Sample.blob 4)))
              (initial Scenario.one_png ∅) ["a.png"]
              "a.png" (Sample.blob 10)) as [[Hlive _]|Hbk];
    [reflexivity ..| |exact Hbk].
  exfalso. revert Hlive. vm_compute. discriminate.
Defined.

Lemma substring_temp (i m : nat) (name : string) :
  substring (6 + i) m (temp_name name) = substring i m name.
Proof.
  unfold temp_name.
  change (".temp_" +:+ name)
    with (String "." (String "t" (String "e" (String "m" (String "p"
            (String "_" name)))))).
  reflexivity.
Qed.

Lemma suffix_temp (name : string) :
  Pathlib.suffix name <> EmptyString ->
  Pathlib.suffix (temp_name name) = Pathlib.suffix name.
Proof.
  assert (Hlen : String.length (temp_name name)
                 = (6 + String.length name)%nat)
    by (unfold temp_name; now rewrite length_append).
  unfold Pathlib.suffix. rewrite rfind_dot_temp.
  destruct (Pathlib.rfind_dot name) as [i|]; [|congruence].
  destruct ((0 <? i)%nat && (i <? String.length name - 1)%nat) eqn:Hc;
    [|congruence].
  intros _. apply andb_prop in Hc as [H1 H2].
  apply Nat.ltb_lt in H1, H2.
  replace (0 <? 6 + i)%nat with true by (symmetry; apply Nat.ltb_lt; lia).
  replace (6 + i <? String.length (temp_name name) - 1)%nat with true
    by (symmetry; apply Nat.ltb_lt; lia).
  simpl andb. cbv iota.
  rewrite Hlen.
  replace (6 + String.length name - (6 + i))%nat
    with (String.length name - i)%nat by lia.
  apply substring_temp.
Qed.

Lemma is_image_suffix (name : string) :
  is_image name = true -> Pathlib.suffix name <> EmptyString.
Proof.
  unfold is_image, image_extensions. intros H.
  apply bool_decide_eq_true in H. intros Hs. rewrite Hs in H.
  apply list_elem_of_In in H. simpl in H.
  repeat (destruct H as [H|H]; [discriminate|]). exact H.
Qed.

Lemma aggressive_compress_encodes C cards name orig alpha final cand :
  Pathlib.startswith name ".temp_" = false ->
  aggressive_encodes C cards name orig alpha final cand ->
  Aggressive.compress_image C cards name (temp_name name)
                            90 (1200, 2000) false
  = (<[final := cand]> cards,
     if Z.of_nat (length orig) =? 0 then None
     else Some (Z.of_nat (length orig), Z.of_nat (length cand), final))
  /\ name <> final
  /\ (final = temp_name name
      \/ (final = Pathlib.with_suffix (temp_name name) ".jpg"
          /\ alpha = false
          /\ Pathlib.lower (Pathlib.suffix name) = ".png")).
Proof.
  intros Hname (Hin & img & img' & params & Hopen & Halpha & Hplan & Hsave).
  assert (Hfinal : final = temp_name name
                   \/ (final = Pathlib.with_suffix (temp_name name) ".jpg"
                       /\ alpha = false
                       /\ Pathlib.lower (Pathlib.suffix name) = ".png")).
  { revert Hplan. unfold Aggressive.plan. simpl.
    destruct (String.eqb (Pathlib.lower (Pathlib.suffix name)) ".png") eqn:Hp;
      destruct alpha; simpl; intros H; injection H as <- <- <-; auto.
    right. repeat split. now apply String.eqb_eq. }
  assert (Hne : name <> final).
  { destruct Hfinal as [->|[-> _]].
    - apply not_temp_neq; [exact Hname|apply temp_name_startswith].
    - apply not_temp_neq; [exact Hname|apply jpg_candidate_is_temp]. }
  split; [|auto].
  unfold Aggressive.compress_image.
  rewrite Hin, Hopen, Halpha, Hplan.
  rewrite (save_and_measure_saved _ _ _ _ _ _ orig cand Hsave Hne Hin).
  now destruct (Z.of_nat (length orig) =? 0).
Qed.

(** X12: in [compress_images_aggressive.py] a candidate that is not
    strictly smaller than its original is removed wherever it was
    written, also when it was written under the changed extension
    ([.temp_<stem>.jpg]); the original keeps its bytes, the asset is
    counted under [processed] and no conversion is counted. *)
Theorem aggressive_discard_removes_candidate
    E st st1 name orig alpha final cand :
  is_image name = true ->
  Pathlib.startswith name ".temp_" = false ->
  ensure_backup E st name = Some st1 ->
  aggressive_encodes (codec E) (fs st) name orig alpha final cand ->
  orig <> [] ->
  (length orig <= length cand)%nat ->
  exists st',
    Aggressive.session E st name = Continue st'
    /\ processed st' = processed st + 1
    /\ failed st' = failed st
    /\ converted_to_jpg st' = converted_to_jpg st
    /\ total_original st' = total_original st
    /\ total_compressed st' = total_compressed st
    /\ fs st' !! name = Some orig
    /\ fs st' !! temp_name name = None
    /\ fs st' !! final = None.
Proof.
  intros Him Ht Hb Henc Ho Hle.
  pose proof (temp_name_neq name) as Hnt.
  destruct (ensure_backup_fs _ _ _ _ Hb)
    as (Hfs & Hto & Htc & Hp & Hf & _ & Hcj).
  rewrite (aggressive_session_unfold _ _ _ _ Him Ht Hb).
  destruct (aggressive_compress_encodes _ _ _ _ _ _ _ Ht Henc)
    as (-> & Hne & _).
  destruct Henc as (Hin & _).
  assert (Hc : cand <> []) by (destruct cand, orig; simpl in *; try lia; congruence).
  apply size_nonzero in Ho, Hc.
  destruct (Z.of_nat (length orig) =? 0) eqn:Hz;
    [apply Z.eqb_eq in Hz; contradiction|].
  simpl. rewrite (truthy_nonzero _ Ho), (truthy_nonzero _ Hc). simpl.
  replace (Z.of_nat (length cand) <? Z.of_nat (length orig)) with false
    by (symmetry; apply Z.ltb_ge; lia).
  eexists. split; [reflexivity|]. simpl.
  repeat split; try congruence.
  - destruct (negb (String.eqb final (temp_name name))).
    + rewrite !unlink_if_exists_other by congruence.
      rewrite lookup_insert_ne by congruence. exact Hin.
    + rewrite unlink_if_exists_other by congruence.
      rewrite lookup_insert_ne by congruence. exact Hin.
  - destruct (negb (String.eqb final (temp_name name))) eqn:Hft.
    + destruct (decide (final = temp_name name)) as [->|Hd].
      * apply unlink_if_exists_gone.
      * rewrite unlink_if_exists_other by congruence.
        apply unlink_if_exists_gone.
    + apply unlink_if_exists_gone.
  - destruct (negb (String.eqb final (temp_name name))) eqn:Hft.
    + apply unlink_if_exists_gone.
    + apply negb_false_iff, String.eqb_eq in Hft. subst final.
      apply unlink_if_exists_gone.
Qed.

Lemma aggressive_discard_removes_candidate_witness :
  exists st',
    Aggressive.session (Sample.env Sample.opaque_rgb (Saved (Sample.blob 12)))
                       (initial Scenario.one_png ∅) "a.png"
    = Continue st'
    /\ fs st' !! "a.png" = Some (Sample.blob 10)
    /\ fs st' !! ".temp_a.png" = None
    /\ fs st' !! ".temp_a.jpg" = None.
Proof.
  destruct (aggressive_discard_removes_candidate
              (Sample.env Sample.opaque_rgb (Saved (Sample.blob 12)))
              (initial Scenario.one_png ∅)
              (set_backup (initial Scenario.one_png ∅)
                          {[ "a.png" := Sample.blob 10 ]})
              "a.png" (Sample.blob 10) false ".temp_a.jpg" (Sample.blob 12))
    as (st' & Hs & _ & _ & _ & _ & _ & H1 & H2 & H3).
  - reflexivity.
  - reflexivity.
  - reflexivity.
  - split; [reflexivity|].
    exists Sample.opaque_rgb, Sample.opaque_rgb, (JPEG 90 true).
    repeat split.
  - discriminate.
  - simpl. lia.
  - exists st'. repeat split; assumption.
Defined.

(** X13: [compress_images_aggressive.py] changes the container of opaque
    PNG files only.  For a transparent PNG and for a JPEG the candidate
    is written to [.temp_name]; a strictly smaller candidate then takes
    the asset's place under its own name, a candidate that is not
    smaller leaves the asset as it was, nothing stays at [.temp_name],
    and no conversion is counted. *)
Theorem aggressive_keeps_container_of_transparent_and_jpeg
    E st st1 name orig alpha final cand :
  is_image name = true ->
  Pathlib.startswith name ".temp_" = false ->
  ensure_backup E st name = Some st1 ->
  aggressive_encodes (codec E) (fs st) name orig alpha final cand ->
  alpha = true \/ Pathlib.lower (Pathlib.suffix name) <> ".png" ->
  orig <> [] -> cand <> [] ->
  exists st',
    Aggressive.session E st name = Continue st'
    /\ final = temp_name name
    /\ processed st' = processed st + 1
    /\ failed st' = failed st
    /\ converted_to_jpg st' = converted_to_jpg st
    /\ fs st' !! temp_name name = None
    /\ fs st' !! name
       = Some (if Z.of_nat (length cand) <? Z.of_nat (length orig)
               then cand else orig).
Proof.
  intros Him Ht Hb Henc Hkeep Ho Hc.
  pose proof (temp_name_neq name) as Hnt.
  destruct (ensure_backup_fs _ _ _ _ Hb)
    as (Hfs & Hto & Htc & Hp & Hf & _ & Hcj).
  rewrite (aggressive_session_unfold _ _ _ _ Him Ht Hb).
  destruct (aggressive_compress_encodes _ _ _ _ _ _ _ Ht Henc)
    as (-> & Hne & Hfinal).
  assert (final = temp_name name) as ->.
  { destruct Hfinal as [H|(_ & Ha & Hpng)]; [exact H|].
    destruct Hkeep as [Hk|Hk]; congruence. }
  destruct Henc as (Hin & _).
  apply size_nonzero in Ho, Hc.
  destruct (Z.of_nat (length orig) =? 0) eqn:Hz;
    [apply Z.eqb_eq in Hz; contradiction|].
  simpl. rewrite (truthy_nonzero _ Ho), (truthy_nonzero _ Hc). simpl.
  rewrite (suffix_temp _ (is_image_suffix _ Him)), String.eqb_refl. simpl.
  destruct (Z.of_nat (length cand) <? Z.of_nat (length orig)).
  - unfold FS.replace. rewrite lookup_insert_eq.
    eexists. split; [reflexivity|]. simpl. repeat split; try congruence.
    + rewrite lookup_insert_ne by congruence. apply lookup_delete_eq.
    + apply lookup_insert_eq.
  - rewrite String.eqb_refl. simpl.
    eexists. split; [reflexivity|]. simpl. repeat split; try congruence.
    + apply unlink_if_exists_gone.
    + rewrite unlink_if_exists_other by congruence.
      rewrite lookup_insert_ne by congruence. exact Hin.
Qed.

Lemma aggressive_keeps_container_of_transparent_and_jpeg_witness :
  exists st',
    Aggressive.session (Scenario2.alpha_env (Saved (Sample.blob 4)))
                       (initial Scenario.one_png ∅) "a.png"
    = Continue st'
    /\ converted_to_jpg st' = 0
    /\ fs st' !! ".temp_a.png" = None
    /\ fs st' !! "a.png" = Some (Sample.blob 4).
Proof.
  destruct (aggressive_keeps_container_of_transparent_and_jpeg
              (Scenario2.alpha_env (Saved (Sample.blob 4)))
              (initial Scenario.one_png ∅)
              (set_backup (initial Scenario.one_png ∅)
                          {[ "a.png" := Sample.blob 10 ]})
              "a.png" (Sample.blob 10) true ".temp_a.png" (Sample.blob 4))
    as (st' & Hs & _ & _ & _ & H1 & H2 & H3).
  - reflexivity.
  - reflexivity.
  - reflexivity.
  - split; [reflexivity|].
    exists Scenario.edge_rgba, Scenario.edge_rgba, (PNG true 9).
    repeat split.
  - left. reflexivity.
  - discriminate.
  - discriminate.
  - exists st'. repeat split; assumption.
Defined.

(** ** [restore_and_convert.py] *)

Lemma replace_from_here (old new : string) (c : ascii) (r : string) :
  Str.replace_from old new 0 (String c r)
  = if String.prefix old (String c r)
    then new +:+ Str.replace_from old new (String.length old - 1) r
    else String c (Str.replace_from old new 0 r).
Proof. reflexivity. Qed.

Lemma replace_from_skip (old new : string) (k : nat) (c : ascii) (r : string) :
  Str.replace_from old new (S k) (String c r) = Str.replace_from old new k r.
Proof. reflexivity. Qed.

Lemma replace_png_ends_in_jpg (a : string) (k : nat) :
  (k <= String.length a)%nat ->
  exists r, Str.replace_from ".png" ".jpg" k (a +:+ ".png") = r +:+ ".jpg".
Proof.
  revert k. induction a as [|c a IH]; intros k Hk.
  - simpl in Hk. assert (k = 0%nat) as -> by lia.
    exists EmptyString. reflexivity.
  - change (String c a +:+ ".png") with (String c (a +:+ ".png")).
    destruct k as [|k].
    + rewrite replace_from_here.
      destruct (String.prefix ".png" (String c (a +:+ ".png"))) eqn:Hpre.
      * assert (Hlong : (3 <= String.length a)%nat).
        { apply prefix_correct in Hpre.
          destruct a as [|x [|y [|z a]]]; try (simpl; lia);
            cbv in Hpre; congruence. }
        destruct (IH 3%nat Hlong) as [r Hr].
        change (String.length ".png" - 1)%nat with 3%nat. rewrite Hr.
        exists (".jpg" +:+ r). reflexivity.
      * destruct (IH 0%nat ltac:(lia)) as [r Hr]. rewrite Hr.
        exists (String c r). reflexivity.
    + rewrite replace_from_skip. simpl in Hk. apply IH. lia.
Qed.

Lemma restored_jpg_name_differs (name : string) :
  Pathlib.endswith name ".png" = true ->
  name <> Str.replace name ".png" ".jpg".
Proof.
  intros Hpng. apply png_is_not_jpg; [exact Hpng|].
  destruct (endswith_inv _ _ Hpng) as [a ->].
  unfold Str.replace.
  destruct (replace_png_ends_in_jpg a 0 ltac:(lia)) as [r ->].
  apply endswith_app.
Qed.

(** ** [restore_and_convert.py]: every card comes back *)

Lemma finished_restore (r : RestoreAndConvert.r_outcome) :
  (if r is RestoreAndConvert.RContinue _ then true else false) = true ->
  r = RestoreAndConvert.RContinue (RestoreAndConvert.r_state_of r).
Proof. destruct r; [reflexivity|discriminate]. Qed.


Lemma convert_png_to_jpg_inv C e backups cards png jpg q ms cards' ok msg :
  RestoreAndConvert.convert_png_to_jpg C e backups cards png jpg q ms
  = (cards', (ok, msg)) ->
  (forall p, p <> jpg -> cards' !! p = cards !! p)
  /\ (is_Some (cards !! jpg) -> is_Some (cards' !! jpg))
  /\ (ok = true -> is_Some (cards' !! jpg)).
Proof.
  unfold RestoreAndConvert.convert_png_to_jpg, FS.write, FS.st_size.
  intros H.
  repeat match type of H with
         | context [match ?x with _ => _ end] => destruct x eqn:?
         | context [if ?x then _ else _] => destruct x eqn:?
         end;
    simplify_eq;
    (split; [intros p Hp; try reflexivity; now apply lookup_insert_ne|]);
    (split; [intros Hs; try exact Hs; rewrite lookup_insert_eq; eauto|]);
    intros Hok; try discriminate; rewrite lookup_insert_eq; eauto.
Qed.

Lemma restore_pass_temp E exc backups st name :
  Pathlib.startswith name ".temp_" = true ->
  RestoreAndConvert.pass E exc backups st name = RestoreAndConvert.RContinue st.
Proof. intros H. unfold RestoreAndConvert.pass. now rewrite H. Qed.

Lemma copy_back_inv E backups cards name cards' :
  RestoreAndConvert.copy_back E backups cards name = Some cards' ->
  exists d, backups !! name = Some d /\ cards' = <[name := d]> cards.
Proof.
  unfold RestoreAndConvert.copy_back. intros H.
  destruct (backups !! name) as [d|]; [|discriminate].
  destruct (copy2_ok E name); [|discriminate].
  injection H as <-. eauto.
Qed.

Lemma restore_pass_classify E exc backups st name st' :
  Pathlib.startswith name ".temp_" = false ->
  Pathlib.endswith name ".png" = true ->
  RestoreAndConvert.pass E exc backups st name
  = RestoreAndConvert.RContinue st' ->
  (forall p, p <> name -> p <> Str.replace name ".png" ".jpg" ->
             RestoreAndConvert.r_cards st' !! p
             = RestoreAndConvert.r_cards st !! p)
  /\ (forall p, p <> name ->
                is_Some (RestoreAndConvert.r_cards st !! p) ->
                is_Some (RestoreAndConvert.r_cards st' !! p))
  /\ RestoreAndConvert.r_converted st' + RestoreAndConvert.r_kept_png st'
     + RestoreAndConvert.r_failed st'
     = RestoreAndConvert.r_converted st + RestoreAndConvert.r_kept_png st
       + RestoreAndConvert.r_failed st + 1
  /\ ((RestoreAndConvert.r_cards st' !! name = None
       /\ is_Some (RestoreAndConvert.r_cards st'
                   !! Str.replace name ".png" ".jpg")
       /\ RestoreAndConvert.r_converted st'
          = RestoreAndConvert.r_converted st + 1)
      \/ (exists d, backups !! name = Some d
                    /\ RestoreAndConvert.r_cards st' !! name = Some d
                    /\ RestoreAndConvert.r_converted st'
                       = RestoreAndConvert.r_converted st)).
Proof.
  intros Htemp Hpng. unfold RestoreAndConvert.pass. rewrite Htemp.
  pose proof (restored_jpg_name_differs name Hpng) as Hne.
  destruct (RestoreAndConvert.convert_png_to_jpg _ _ _ _ _ _ _ _)
    as [cards [success message]] eqn:Hconv.
  destruct (convert_png_to_jpg_inv _ _ _ _ _ _ _ _ _ _ _ Hconv)
    as (Hother & Hkeep & Hok).
  assert (Hkeep' : forall p, is_Some (RestoreAndConvert.r_cards st !! p) ->
                             is_Some (cards !! p)).
  { intros p Hp.
    destruct (decide (p = Str.replace name ".png" ".jpg")) as [->|Hpj];
      [auto|now rewrite Hother]. }
  assert (Hcopied : forall cards' k c f,
             RestoreAndConvert.copy_back E backups cards name = Some cards' ->
             RestoreAndConvert.mkRState cards' k c f = st' ->
             k = RestoreAndConvert.r_converted st ->
             c + f = RestoreAndConvert.r_kept_png st
                     + RestoreAndConvert.r_failed st + 1 ->
             (forall p, p <> name -> p <> Str.replace name ".png" ".jpg" ->
                        RestoreAndConvert.r_cards st' !! p
                        = RestoreAndConvert.r_cards st !! p)
             /\ (forall p, p <> name ->
                           is_Some (RestoreAndConvert.r_cards st !! p) ->
                           is_Some (RestoreAndConvert.r_cards st' !! p))
             /\ RestoreAndConvert.r_converted st'
                + RestoreAndConvert.r_kept_png st'
                + RestoreAndConvert.r_failed st'
                = RestoreAndConvert.r_converted st
                  + RestoreAndConvert.r_kept_png st
                  + RestoreAndConvert.r_failed st + 1
             /\ ((RestoreAndConvert.r_cards st' !! name = None
                  /\ is_Some (RestoreAndConvert.r_cards st'
                              !! Str.replace name ".png" ".jpg")
                  /\ RestoreAndConvert.r_converted st'
                     = RestoreAndConvert.r_converted st + 1)
                 \/ (exists d, backups !! name = Some d
                               /\ RestoreAndConvert.r_cards st' !! name = Some d
                               /\ RestoreAndConvert.r_converted st'
                                  = RestoreAndConvert.r_converted st))).
  { intros cards' k c f Hcb <- -> Hsum.
    apply copy_back_inv in Hcb as (d & Hd & ->). simpl.
    split; [|split; [|split]].
    - intros p Hp1 Hp2. rewrite lookup_insert_ne by congruence. auto.
    - intros p Hp1 Hs. rewrite lookup_insert_ne by congruence. auto.
    - lia.
    - right. exists d. rewrite lookup_insert_eq. auto. }
  destruct success.
  - intros H. injection H as <-. simpl.
    split; [|split; [|split]].
    + intros p Hp1 Hp2. rewrite unlink_if_exists_other by congruence. auto.
    + intros p Hp1 Hs. rewrite unlink_if_exists_other by congruence. auto.
    + lia.
    + left. split; [apply unlink_if_exists_gone|].
      split; [|reflexivity].
      rewrite unlink_if_exists_other by congruence. auto.
  - destruct (Str.contains _ message);
      destruct (RestoreAndConvert.copy_back E backups cards name)
        as [cards'|] eqn:Hcb; try discriminate;
      intros H; injection H as H;
      (apply (Hcopied cards' _ _ _ eq_refl H); [reflexivity|lia]).
Qed.






Lemma restore_loop_counts E exc backups :
  forall files st st',
    (forall m, m ∈ files -> Pathlib.endswith m ".png" = true) ->
    RestoreAndConvert.loop E exc backups st files
    = RestoreAndConvert.RContinue st' ->
    RestoreAndConvert.r_converted st' + RestoreAndConvert.r_kept_png st'
    + RestoreAndConvert.r_failed st'
    = RestoreAndConvert.r_converted st + RestoreAndConvert.r_kept_png st
      + RestoreAndConvert.r_failed st
      + Z.of_nat
          (length (List.filter
                     (fun n => negb (Pathlib.startswith n ".temp_")) files)).
Proof.
  induction files as [|m rest IH]; intros st st' Hpng Hloop.
  - simpl in Hloop. injection Hloop as <-. simpl. lia.
  - simpl in Hloop.
    destruct (RestoreAndConvert.pass E exc backups st m)
      as [st1|st1] eqn:Hpass; [|discriminate].
    assert (Hrest : forall k, k ∈ rest -> Pathlib.endswith k ".png" = true)
      by (intros k Hk; apply Hpng; now apply list_elem_of_further).
    rewrite (IH st1 st' Hrest Hloop). simpl List.filter.
    destruct (Pathlib.startswith m ".temp_") eqn:Htemp; simpl negb; cbv iota.
    + rewrite restore_pass_temp in Hpass by exact Htemp.
      injection Hpass as <-. reflexivity.
    + destruct (restore_pass_classify _ _ _ _ _ _ Htemp
                  (Hpng m (list_elem_of_here _ _)) Hpass) as (_ & _ & Hsum & _).
      rewrite Hsum. simpl length. lia.
Qed.

(** X15: a run of [restore_and_convert.py] that reaches the end of the
    listing has counted every [.png] name of the backup directory
    without the [.temp_] prefix exactly once, under [converted], under
    [kept_png] or under [failed]. *)
Theorem restore_run_counts_every_png_once E exc backups cards listing st' :
  RestoreAndConvert.main E exc backups cards listing
  = RestoreAndConvert.RContinue st' ->
  RestoreAndConvert.r_converted st' + RestoreAndConvert.r_kept_png st'
  + RestoreAndConvert.r_failed st'
  = Z.of_nat (length (restorable listing)).
Proof.
  unfold RestoreAndConvert.main, restorable. intros Hrun.
  apply restore_loop_counts in Hrun.
  - rewrite Hrun. simpl. lia.
  - intros m Hm. apply list_elem_of_In, List.filter_In in Hm as [_ Hm].
    exact Hm.
Qed.

Lemma restore_run_counts_every_png_once_witness :
  let st' :=
    RestoreAndConvert.r_state_of
      (RestoreAndConvert.main
         (Sample.env Sample.opaque_rgb (Saved (Sample.blob 4)))
         (fun _ => "")
         (<[ "b.png" := Sample.blob 7 ]> {[ "a.png" := Sample.blob 10 ]})
         ∅ ["a.png"; "b.png"; ".temp_c.png"; "notes.txt"]) in
  RestoreAndConvert.r_converted st' + RestoreAndConvert.r_kept_png st'
  + RestoreAndConvert.r_failed st' = 2.
Proof.
  intros st'.
  apply (restore_run_counts_every_png_once
           (Sample.env Sample.opaque_rgb (Saved (Sample.blob 4)))
           (fun _ => "")
           (<[ "b.png" := Sample.blob 7 ]> {[ "a.png" := Sample.blob 10 ]})
           ∅ ["a.png"; "b.png"; ".temp_c.png"; "notes.txt"]).
  apply finished_restore. vm_compute. reflexivity.
Defined.

Lemma contains_after_error_prefix (e : string) :
  Str.contains "透明通道" (RestoreAndConvert.msg_error e)
  = Str.contains "透明通道" e.
Proof. cbv. reflexivity. Qed.

(** X16: which counter of [restore_and_convert.py] a card that was not
    converted goes to is read off the message: [kept_png] if it contains
    the words for alpha channel, [failed] otherwise.  A transparent PNG
    is therefore counted under [kept_png]; a file that does not decode is
    counted under [failed], unless the text of the exception happens to
    contain those words, and then under [kept_png].  Either way the PNG
    is copied from the backup into [cards/]. *)
Theorem restore_counts_by_message E exc backups st name data :
  Pathlib.startswith name ".temp_" = false ->
  backups !! name = Some data ->
  copy2_ok E name = true ->
  (forall img,
      cd_open (codec E) data = Some img ->
      has_transparency img = Some true ->
      RestoreAndConvert.pass E exc backups st name
      = RestoreAndConvert.RContinue
          (RestoreAndConvert.mkRState
             (<[name := data]> (RestoreAndConvert.r_cards st))
             (RestoreAndConvert.r_converted st)
             (RestoreAndConvert.r_kept_png st + 1)
             (RestoreAndConvert.r_failed st)))
  /\ (cd_open (codec E) data = None ->
      RestoreAndConvert.pass E exc backups st name
      = RestoreAndConvert.RContinue
          (if Str.contains "透明通道" (exc name)
           then RestoreAndConvert.mkRState
                  (<[name := data]> (RestoreAndConvert.r_cards st))
                  (RestoreAndConvert.r_converted st)
                  (RestoreAndConvert.r_kept_png st + 1)
                  (RestoreAndConvert.r_failed st)
           else RestoreAndConvert.mkRState
                  (<[name := data]> (RestoreAndConvert.r_cards st))
                  (RestoreAndConvert.r_converted st)
                  (RestoreAndConvert.r_kept_png st)
                  (RestoreAndConvert.r_failed st + 1))).
Proof.
  intros Htemp Hb Hc. split.
  - intros img Ho Ha.
    unfold RestoreAndConvert.pass, RestoreAndConvert.convert_png_to_jpg,
      RestoreAndConvert.copy_back.
    rewrite Htemp, Hb, Ho, Ha, Hc. reflexivity.
  - intros Ho.
    unfold RestoreAndConvert.pass, RestoreAndConvert.convert_png_to_jpg,
      RestoreAndConvert.copy_back.
    rewrite Htemp, Hb, Ho, Hc. rewrite contains_after_error_prefix.
    now destruct (Str.contains "透明通道" (exc name)).
Qed.

Lemma restore_counts_by_message_witness :
  RestoreAndConvert.pass Sample.env_undecodable
    (fun n => "cannot identify image file " +:+ n)
    {[ "透明通道.png" := Sample.blob 10 ]}
    (RestoreAndConvert.mkRState ∅ 0 0 0) "透明通道.png"
  = RestoreAndConvert.RContinue
      (RestoreAndConvert.mkRState {[ "透明通道.png" := Sample.blob 10 ]} 0 1 0).
Proof.
  destruct (restore_counts_by_message Sample.env_undecodable
              (fun n => "cannot identify image file " +:+ n)
              {[ "透明通道.png" := Sample.blob 10 ]}
              (RestoreAndConvert.mkRState ∅ 0 0 0) "透明通道.png"
              (Sample.blob 10)) as [_ H]; [reflexivity..|].
  etransitivity; [apply H; reflexivity|].
  vm_compute. reflexivity.
Defined.

(** ** [update_html_references.py]: when the document is written *)

Lemma png_to_jpg_inv cards listing p j :
  In (p, j) (UpdateHtml.png_to_jpg cards listing) ->
  In p listing /\ Pathlib.endswith p ".png" = true
  /\ j = Pathlib.with_suffix p ".jpg" /\ is_Some (cards !! j).
Proof.
  unfold UpdateHtml.png_to_jpg. intros H.
  apply in_flat_map in H as (q & Hq & Hpair).
  apply List.filter_In in Hq as [Hq Hpng].
  destruct (FS.exists_ cards (Pathlib.with_suffix q ".jpg")) eqn:He;
    [|destruct Hpair].
  destruct Hpair as [Heq|[]]. injection Heq as <- <-.
  apply exists_true in He. auto.
Qed.

Lemma rewrite_without_match R mapping content k :
  (forall p j, In (p, j) mapping -> UpdateHtml.re_search R p content = false) ->
  UpdateHtml.rewrite R mapping content k = (content, k).
Proof.
  induction mapping as [|[p j] rest IH]; intros Hno; [reflexivity|].
  simpl. rewrite (Hno p j) by (left; reflexivity).
  apply IH. intros p' j' Hin. apply (Hno p' j'). now right.
Qed.

Lemma rewrite_counts_matches R mapping :
  forall content k,
    k <= snd (UpdateHtml.rewrite R mapping content k)
      <= k + Z.of_nat (length mapping)
    /\ (k < snd (UpdateHtml.rewrite R mapping content k) ->
        exists p j text, In (p, j) mapping
                         /\ UpdateHtml.re_search R p text = true).
Proof.
  induction mapping as [|[p j] rest IH]; intros content k.
  - simpl. split; [lia|]. intros H. lia.
  - simpl UpdateHtml.rewrite.
    destruct (UpdateHtml.re_search R p content) eqn:Hs.
    + destruct (IH (UpdateHtml.re_sub R p j content) (k + 1)) as [Hb _].
      split; [simpl length; lia|].
      intros _. exists p, j, content. split; [now left|exact Hs].
    + destruct (IH content k) as [Hb Hex].
      split; [simpl length; lia|].
      intros Hlt. destruct (Hex Hlt) as (p' & j' & text & Hin & Hfound).
      exists p', j', text. split; [now right|exact Hfound].
Qed.

(** X17: [update_html_references.py] writes [index.html] only for a
    reason.  If it writes, then the document and [cards/] exist and some
    [.png] file of [cards/] that has a [.jpg] of the same stem beside it
    was found by the search; and if none of those names is found in the
    document, nothing is written. *)
Theorem html_written_only_for_converted_names R :
  (forall html dir out,
      UpdateHtml.update_html_references R html dir = Some out ->
      exists content cards listing p text,
        html = Some content /\ dir = Some (cards, listing)
        /\ In p listing /\ Pathlib.endswith p ".png" = true
        /\ is_Some (cards !! Pathlib.with_suffix p ".jpg")
        /\ UpdateHtml.re_search R p text = true)
  /\ (forall content cards listing,
         (forall p, In p listing -> Pathlib.endswith p ".png" = true ->
                    is_Some (cards !! Pathlib.with_suffix p ".jpg") ->
                    UpdateHtml.re_search R p content = false) ->
         UpdateHtml.update_html_references R (Some content)
                                           (Some (cards, listing))
         = None).
Proof.
  split.
  - intros [content|] [[cards listing]|] out;
      unfold UpdateHtml.update_html_references; try discriminate.
    destruct (UpdateHtml.png_to_jpg cards listing) as [|pair rest] eqn:Hmap;
      [discriminate|].
    rewrite <- Hmap.
    destruct (UpdateHtml.rewrite R (UpdateHtml.png_to_jpg cards listing)
                                 content 0) as [content' n] eqn:Hrw.
    destruct (n >? 0) eqn:Hn; [|discriminate]. intros _.
    destruct (rewrite_counts_matches R (UpdateHtml.png_to_jpg cards listing)
                                     content 0) as [_ Hex].
    rewrite Hrw in Hex. simpl in Hex.
    destruct Hex as (p & j & text & Hin & Hfound); [lia|].
    apply png_to_jpg_inv in Hin as (Hl & Hpng & -> & Hjpg).
    exists content, cards, listing, p, text. auto 10.
  - intros content cards listing Hno.
    unfold UpdateHtml.update_html_references.
    destruct (UpdateHtml.png_to_jpg cards listing) as [|pair rest] eqn:Hmap;
      [reflexivity|].
    rewrite <- Hmap. rewrite rewrite_without_match; [reflexivity|].
    intros p j Hin. apply png_to_jpg_inv in Hin as (Hl & Hpng & -> & Hjpg).
    now apply Hno.
Qed.

Lemma html_written_only_for_converted_names_witness :
  UpdateHtml.update_html_references Scenario2.exact_regex
    (Some "<img src='cards/b.png'>")
    (Some (<[ "a.jpg" := Sample.blob 4 ]> {[ "a.png" := Sample.blob 10 ]},
           ["a.jpg"; "a.png"]))
  = None.
Proof.
  apply (proj2 (html_written_only_for_converted_names Scenario2.exact_regex)).
  intros p Hin Hpng Hjpg.
  destruct Hin as [<-|[<-|[]]]; reflexivity.
Defined.

(** ** The backup ledger: the first write, and every later run *)




Section FirstBackup.

Variable body : State -> string -> outcome.
Variable relevant : string -> bool.

Hypothesis body_skips :
  forall s n, relevant n = false -> body s n = Continue s.
Hypothesis body_goes_on :
  forall s n, relevant n = true ->
    is_Some (backup s !! n) \/ is_Some (fs s !! n) ->
    exists s', body s n = Continue s' /\ is_Some (backup s' !! n).
Hypothesis body_copies :
  forall s n d, relevant n = true ->
    fs s !! n = Some d -> backup s !! n = None ->
    backup (state_of (body s n)) !! n = Some d.
Hypothesis body_keeps_backups :
  forall s n p b, backup s !! p = Some b ->
    backup (state_of (body s n)) !! p = Some b.
Hypothesis body_fs_other :
  forall s n p, p <> n -> Pathlib.startswith p ".temp_" = false ->
    fs (state_of (body s n)) !! p = fs s !! p.
Hypothesis body_backup_other :
  forall s n p, p <> n ->
    backup (state_of (body s n)) !! p = backup s !! p.


End FirstBackup.











(** The no-op looks at the path only.  A file that is already at the
    backup path, here one byte that an interrupted copy would have left,
    is taken for the backup: the run goes on, replaces the ten bytes of
    the asset by the smaller candidate, and the backup directory still
    holds the one byte. *)
Lemma leftover_at_backup_path_is_kept :
  exists st',
    Conservative.main (Sample.env Sample.opaque_rgb (Saved (Sample.blob 4)))
                      (initial Scenario.one_png {[ "a.png" := Sample.blob 1 ]})
                      ["a.png"]
    = Continue st'
    /\ fs st' !! "a.png" = Some (Sample.blob 4)
    /\ backup st' !! "a.png" = Some (Sample.blob 1).
Proof.
  exists (state_of
            (Conservative.main
               (Sample.env Sample.opaque_rgb (Saved (Sample.blob 4)))
               (initial Scenario.one_png {[ "a.png" := Sample.blob 1 ]})
               ["a.png"])).
  split; [apply finished_run; vm_compute; reflexivity|].
  split; vm_compute; reflexivity.
Qed.


